(** * pykdlqr: the KDL QR label tool (kdl_qr_tool_V110.py, kdl_qr_tool_V200.py)

    A shallow embedding of the decision logic of the tool: the catalog
    loader, the favourites-first dropdown ordering, the composition of
    the QR payload with its usage bookkeeping, and the pixel geometry
    of the printed label.

    Conventions.
    - A Python [str] is a [string] holding its UTF-8 encoding.  Python
      orders strings by code point; on UTF-8 the byte-wise
      lexicographic order is the same order, so [String.ltb] is
      Python's [<] on [str].
    - A Python [int] is a [Z]; a Python [float] is an IEEE-754 binary64
      value, a [spec_float] at precision 53.
    - [usage_data] (a dict from code to count) is a [gmap string Z].
    - Calls that leave the process (message boxes, [save_usage]) are
      recorded in an effect log, in program order; the widgets the
      actions write to (the preview image, the dropdown list) are
      fields of the state. *)

From Stdlib Require Import ZArith Lia Bool.
From Stdlib Require Import Strings.String Strings.Ascii.
From Stdlib Require Import Structures.OrderedTypeEx.
From Stdlib Require Import Floats.SpecFloat.
From stdpp Require Import base list sorting gmap strings.

Local Open Scope string_scope.
Local Open Scope Z_scope.
Local Open Scope list_scope.

(** ** Python strings *)

Module PyStr.

(** [a < b] on [str]. *)
Definition lt (a b : string) : bool := String.ltb a b.

(** [str.isspace], on the UTF-8 bytes of one code point.  The
    white-space code points of CPython are U+0009..U+000D,
    U+001C..U+0020, U+0085, U+00A0, U+1680, U+2000..U+200A, U+2028,
    U+2029, U+202F, U+205F and U+3000; they take one, two or three
    bytes. *)
Definition is_space1 (b0 : N) : bool :=
  ((9 <=? b0) && (b0 <=? 13) || (28 <=? b0) && (b0 <=? 32))%N.

Definition is_space2 (b0 b1 : N) : bool :=
  ((b0 =? 194) && ((b1 =? 133) || (b1 =? 160)))%N.

Definition is_space3 (b0 b1 b2 : N) : bool :=
  ((b0 =? 225) && (b1 =? 154) && (b2 =? 128)
   || (b0 =? 226) && (b1 =? 128)
      && ((128 <=? b2) && (b2 <=? 138) || (b2 =? 168) || (b2 =? 169) || (b2 =? 175))
   || (b0 =? 226) && (b1 =? 129) && (b2 =? 159)
   || (b0 =? 227) && (b1 =? 128) && (b2 =? 128))%N.

(** The number of bytes of a leading white-space character, [0] when
    the bytes do not start with one. *)
Definition space_width (bs : list N) : nat :=
  match bs with
  | b0 :: rest =>
      if is_space1 b0 then 1%nat
      else match rest with
           | b1 :: rest' =>
               if is_space2 b0 b1 then 2%nat
               else match rest' with
                    | b2 :: _ => if is_space3 b0 b1 b2 then 3%nat else 0%nat
                    | [] => 0%nat
                    end
           | [] => 0%nat
           end
  | [] => 0%nat
  end.

(** The same at the end of the string; [rbs] holds the bytes in
    reverse order. *)
Definition space_width_rev (rbs : list N) : nat :=
  match rbs with
  | b0 :: rest =>
      if is_space1 b0 then 1%nat
      else match rest with
           | b1 :: rest' =>
               if is_space2 b1 b0 then 2%nat
               else match rest' with
                    | b2 :: _ => if is_space3 b2 b1 b0 then 3%nat else 0%nat
                    | [] => 0%nat
                    end
           | [] => 0%nat
           end
  | [] => 0%nat
  end.

Fixpoint strip_with (width : list N → nat) (fuel : nat) (bs : list N) : list N :=
  match fuel with
  | O => bs
  | S fuel' =>
      match width bs with
      | O => bs
      | w => strip_with width fuel' (drop w bs)
      end
  end.

Definition bytes (s : string) : list N := N_of_ascii <$> list_ascii_of_string s.
Definition of_bytes (bs : list N) : string :=
  string_of_list_ascii (ascii_of_N <$> bs).

(** [s.strip()]: leading, then trailing white space removed. *)
Definition strip (s : string) : string :=
  let bs := bytes s in
  let l := strip_with space_width (length bs) bs in
  let r := strip_with space_width_rev (length l) (reverse l) in
  of_bytes (reverse r).

End PyStr.

(** ** Python's [sorted]

    [sorted] is a stable sort that compares keys with [<].  The model
    is the stable insertion sort: an element is placed before the first
    element of the sorted tail that is not strictly smaller. *)

Section Sorted.
Context {A : Type} (lt : A → A → bool).

Fixpoint insert_sorted (x : A) (l : list A) : list A :=
  match l with
  | [] => [x]
  | y :: l' => if lt y x then y :: insert_sorted x l' else x :: y :: l'
  end.

Fixpoint sorted (l : list A) : list A :=
  match l with
  | [] => []
  | x :: l' => insert_sorted x (sorted l')
  end.
End Sorted.

(** ** The catalog and the usage counters *)

Record entry := Entry { code : string; display : string }.

Definition FALLBACK_KDL_DATA : list entry :=
  [ Entry "A01" "Cholera durch Vibrio cholerae 01, Biovar cholerae";
    Entry "A02" "Salmonellenenteritis";
    Entry "B20" "HIV-Krankheit, durch HIV-1-Virus";
    Entry "C34" "Bösartige Neubildung: Bronchien und Lunge";
    Entry "E11" "Nicht insulinabhängiger Diabetes mellitus";
    Entry "I10" "Essentielle (primäre) Hypertonie";
    Entry "J45" "Asthma bronchiale";
    Entry "K35" "Akute Appendizitis";
    Entry "M54" "Rückenschmerzen";
    Entry "N39" "Sonstige Krankheiten der Harnorgane" ].

(** [usage_data.get(code, 0)] *)
Definition usage_get (usage_data : gmap string Z) (c : string) : Z :=
  default 0 (usage_data !! c).

(** The separator entry of the dropdown. *)
Definition SEPARATOR : string := "---".

(** ** The favourites ranker: [update_dropdown] *)

Section Ranker.
Variable KDL_DATA : list entry.
Variable usage_data : gmap string Z.

(** [d[k] = v] on a dict kept as its item list: an existing key keeps
    its position, a new key goes to the end. *)
Fixpoint dict_set (k : string) (v : Z) (d : list (string * Z)) : list (string * Z) :=
  match d with
  | [] => [(k, v)]
  | (k', v') :: d' =>
      if String.eqb k' k then (k', v) :: d' else (k', v') :: dict_set k v d'
  end.

(** [{code: usage_data.get(code, 0) for code in (e["code"] for e in KDL_DATA)}.items()] *)
Definition valid_usage : list (string * Z) :=
  fold_left (λ d e, dict_set (code e) (usage_get usage_data (code e)) d) KDL_DATA [].

(** [(-kv[1], kv[0]) < (-kv'[1], kv'[0])], the tuple comparison of the
    sort key: the first components decide unless they are equal. *)
Definition key_lt (kv kv' : string * Z) : bool :=
  if (- kv.2 =? - kv'.2)%Z then PyStr.lt kv.1 kv'.1 else (- kv.2 <? - kv'.2)%Z.

Definition favorites_sorted : list (string * Z) :=
  take 5 (sorted key_lt valid_usage).

Definition favorite_codes : list string :=
  fst <$> filter (λ kv, 0 < usage_get usage_data kv.1) favorites_sorted.

Definition favorite_displays : list string :=
  display <$> filter (λ e, code e ∈ favorite_codes) KDL_DATA.

Definition display_lt (e e' : entry) : bool := PyStr.lt (display e) (display e').

Definition remaining_displays : list string :=
  display <$> filter (λ e, display e ∉ favorite_displays) (sorted display_lt KDL_DATA).

(** The list assigned to [self.kdl_dropdown["values"]]. *)
Definition update_dropdown : list string :=
  (match favorite_displays with
   | [] => []
   | _ :: _ => favorite_displays ++ [SEPARATOR]
   end) ++ remaining_displays.

(** [get_kdl_code]: the code of the first entry with that display. *)
Fixpoint lookup_display (l : list entry) (d : string) : option string :=
  match l with
  | [] => None
  | e :: l' => if String.eqb (display e) d then Some (code e) else lookup_display l' d
  end.

Definition get_kdl_code (d : string) : option string := lookup_display KDL_DATA d.
End Ranker.

(** ** The f-string of the payload

    [f"{{sys:GUN_CID,cid:{fallnummer},formid:{code}}}"]: in an f-string
    a doubled brace is a literal brace and [{name}] is replaced by the
    value of [name]. *)

Module FString.

Inductive part :=
| Lit (c : ascii)
| Field (name : string).

(** [field] is [Some name] while the scan is inside a replacement
    field, [name] being what was read of it so far. *)
Fixpoint parse (s : string) (field : option string) : option (list part) :=
  match s with
  | EmptyString => match field with None => Some [] | Some _ => None end
  | String c rest =>
      match field with
      | Some name =>
          if Ascii.eqb c "}" then cons (Field name) <$> parse rest None
          else parse rest (Some (name ++ String c EmptyString)%string)
      | None =>
          if Ascii.eqb c "{" then
            match rest with
            | String c' rest' =>
                if Ascii.eqb c' "{" then cons (Lit "{") <$> parse rest' None
                else parse rest (Some EmptyString)
            | EmptyString => None
            end
          else if Ascii.eqb c "}" then
            match rest with
            | String c' rest' =>
                if Ascii.eqb c' "}" then cons (Lit "}") <$> parse rest' None
                else None
            | EmptyString => None
            end
          else cons (Lit c) <$> parse rest None
      end
  end.

Fixpoint render (env : string → option string) (ps : list part) : option string :=
  match ps with
  | [] => Some EmptyString
  | Lit c :: ps' => String c <$> render env ps'
  | Field name :: ps' =>
      match env name, render env ps' with
      | Some v, Some r => Some (v ++ r)%string
      | _, _ => None
      end
  end.

Definition format (template : string) (env : string → option string) : option string :=
  parse template None ≫= render env.

End FString.

(** The source text of the f-string in [generate_qr]. *)
Definition QR_TEMPLATE : string := "{{sys:GUN_CID,cid:{fallnummer},formid:{code}}}".

(** [qr_data] in [generate_qr]. *)
Definition qr_data (fallnummer code : string) : string :=
  default EmptyString
    (FString.format QR_TEMPLATE
       (λ name, if String.eqb name "fallnummer" then Some fallnummer
                else if String.eqb name "code" then Some code
                else None)).

(** ** The application state and its actions *)

(** What leaves the process, in program order. *)
Inductive effect :=
| ShowError (title message : string)
| ShowInfo (title message : string)
| SaveUsage (data : gmap string Z)
| Traceback.

(** The module-level [usage_data] and the fields of [KDLQRApp] that the
    actions read or write.  The QR image [qr_pil] is identified by the
    payload it encodes. *)
Record state := State {
  usage_data : gmap string Z;
  fallnummer_entry : string;
  kdl_var : string;
  qr_pil : option string;
  kdl_dropdown : list string
}.

(** Which way a run of [generate_qr] ended: the QR code for [code]
    was made from [payload]; an input error was reported; or
    [qrcode.make] raised and the exception left the handler. *)
Inductive outcome :=
| Composed (code payload : string)
| Rejected
| Raised.

Section App.
Variable KDL_DATA : list entry.

(** [qrcode.make] raises when the data exceed the capacity of the
    largest QR symbol; [qr_fits] tells whether it returns. *)
Variable qr_fits : string → bool.

Definition generate_qr (st : state) : outcome * state * list effect :=
  let fallnummer := PyStr.strip (fallnummer_entry st) in
  let display := PyStr.strip (kdl_var st) in
  if String.eqb display "" || String.eqb display "---" then
    (Rejected, st, [ShowError "Fehler" "Bitte einen KDL-Eintrag wählen."])
  else
    match get_kdl_code KDL_DATA display with
    | Some code =>
        if String.eqb fallnummer "" || String.eqb code "" then
          (Rejected, st, [ShowError "Fehler" "Bitte Fallnummer und KDL auswählen."])
        else
          let payload := qr_data fallnummer code in
          if qr_fits payload then
            let usage' :=
              <[code := usage_get (usage_data st) code + 1]> (usage_data st) in
            (Composed code payload,
             State usage' (fallnummer_entry st) (kdl_var st) (Some payload)
               (update_dropdown KDL_DATA usage'),
             [SaveUsage usage'])
          else (Raised, st, [Traceback])
    | None => (Rejected, st, [ShowError "Fehler" "Bitte Fallnummer und KDL auswählen."])
    end.

Definition reset_favorites (st : state) : state * list effect :=
  let usage' : gmap string Z := ∅ in
  (State usage' (fallnummer_entry st) (kdl_var st) (qr_pil st)
     (update_dropdown KDL_DATA usage'),
   [SaveUsage usage'; ShowInfo "Info" "Favoriten wurden zurückgesetzt."]).
End App.

(** ** Python floats *)

Module PyFloat.

Definition prec : Z := 53.
Definition emax : Z := 1024.

(** [float(z)] for an [int]: the nearest binary64 value;
    [OverflowError] when there is none. *)
Definition of_int (z : Z) : option spec_float :=
  match binary_normalize prec emax z 0 false with
  | S754_infinity _ | S754_nan => None
  | f => Some f
  end.

(** The decimal literal with digits [num] scaled by [den], a power of
    ten: the binary64 value nearest to [num / den].  Both are below
    [2^53], so they are floats themselves and their correctly rounded
    quotient is that value. *)
Definition literal (num den : Z) : spec_float :=
  SFdiv prec emax (binary_normalize prec emax num 0 false)
                  (binary_normalize prec emax den 0 false).

Definition mul (x y : spec_float) : spec_float := SFmul prec emax x y.

(** [x * z] for a float [x] and an int [z]. *)
Definition mul_int (x : spec_float) (z : Z) : option spec_float :=
  mul x <$> of_int z.

(** [int(x)]: truncation toward zero; [OverflowError] or [ValueError]
    on an infinity or a NaN. *)
Definition to_int (x : spec_float) : option Z :=
  match x with
  | S754_zero _ => Some 0
  | S754_finite s m e =>
      let a := if (0 <=? e)%Z then Z.shiftl (Zpos m) e else Z.shiftr (Zpos m) (- e) in
      Some (if s then - a else a)
  | S754_infinity _ | S754_nan => None
  end.

End PyFloat.

(** ** The label geometry of [print_qr] *)

(** [CM_TO_IN = 0.3937007874] *)
Definition CM_TO_IN : spec_float :=
  Eval vm_compute in PyFloat.literal 3937007874 10000000000.

(** What [print_qr] hands to the imaging calls: the size of the label
    image ([Image.new]), the size and position of the QR block
    ([resize], [paste]) and the anchors of the three text lines
    ([draw.text]). *)
Record layout := Layout {
  image_size : Z * Z;
  qr_size : Z * Z;
  qr_pos : Z * Z;
  fallnummer_pos : Z * Z;
  kdl_pos : Z * Z;
  date_pos : Z * Z
}.

(** [int(k * CM_TO_IN * dpi)] for a float literal [k]. *)
Definition cm_px (k : spec_float) (dpi : Z) : option Z :=
  PyFloat.mul_int (PyFloat.mul k CM_TO_IN) dpi ≫= PyFloat.to_int.

Module V110.

Definition print_layout (dpi_x dpi_y : Z) : option layout :=
  qr_side_px ← cm_px (PyFloat.literal 25 10) (Z.min dpi_x dpi_y);
  (* the int literal 4 is converted to a float by the product *)
  label_width_px ← cm_px (PyFloat.literal 4 1) dpi_x;
  margin ← cm_px (PyFloat.literal 4 10) dpi_y;
  let label_height_px := qr_side_px + margin in
  gap ← cm_px (PyFloat.literal 2 10) dpi_x;
  let text_x := qr_side_px + gap in
  line2 ← cm_px (PyFloat.literal 7 10) dpi_y;
  Some (Layout (label_width_px, label_height_px) (qr_side_px, qr_side_px) (0, 0)
          (text_x, 0) (text_x, line2) (0, qr_side_px)).

End V110.

Module V200.

Definition print_layout (dpi_x dpi_y : Z) : option layout :=
  qr_side_px ← cm_px (PyFloat.literal 25 10) (Z.min dpi_x dpi_y);
  label_width_px ← cm_px (PyFloat.literal 4 1) dpi_x;
  let label_height_px := qr_side_px in
  let text_x := qr_side_px + 10 in
  Some (Layout (label_width_px, label_height_px + 20) (qr_side_px, qr_side_px) (0, 0)
          (text_x, 0) (text_x, 20) (0, label_height_px)).

End V200.

(** The formulas of the specification, in exact arithmetic. *)
Module LabelSpec.

(** Python's [round] of the rational [num / den], [0 < den]: to the
    nearest integer, a tie to the even one. *)
Definition round (num den : Z) : Z :=
  let q := num / den in
  let r := num mod den in
  if (2 * r <? den)%Z then q
  else if (den <? 2 * r)%Z then q + 1
  else if Z.even q then q else q + 1.

(** [round(2.5 × 0.3937007874 × min(dpiX, dpiY))] *)
Definition qrSidePixels (dpiX dpiY : Z) : Z :=
  round (25 * 3937007874 * Z.min dpiX dpiY) (10 * 10000000000).

(** [round(4 × 0.3937007874 × dpiX)] *)
Definition labelWidthPixels (dpiX : Z) : Z :=
  round (4 * 3937007874 * dpiX) 10000000000.

(** The integer part of [k/10 × 0.3937007874 × dpi] for a
    non-negative [dpi]. *)
Definition trunc_cm (k dpi : Z) : Z :=
  (k * 3937007874 * dpi) / (10 * 10000000000).

End LabelSpec.

(** ** The catalog loader: [load_kdl_data] *)

(** What [json.load] returns. *)
#[warnings="-register-all"]
Inductive json :=
| JNull
| JBool (b : bool)
| JInt (z : Z)
| JFloat (f : spec_float)
| JStr (s : string)
| JList (items : list json)
| JDict (fields : list (string * json)).

(** The file [kdl_embedded.json] of one directory: absent; present but
    opening, decoding or parsing it raises; or present with its parsed
    content. *)
Inductive file :=
| NoFile
| Unreadable
| JsonFile (data : json).

(** Where the program runs: [sys.frozen], the directory of
    [sys.executable], [os.getcwd()], the directory of [__file__], and
    the state of [kdl_embedded.json] in a directory. *)
Record platform := Platform {
  frozen : bool;
  exe_dir : string;
  cwd : string;
  here : string;
  kdl_file : string → file
}.

Definition entry_json (e : entry) : json :=
  JDict [("code", JStr (code e)); ("display", JStr (display e))].

(** [FALLBACK_KDL_DATA] as the list of dicts it is in the source. *)
Definition FALLBACK_KDL_JSON : list json := entry_json <$> FALLBACK_KDL_DATA.

(** [needle in hay] for two strings. *)
Fixpoint is_substring (needle hay : string) : bool :=
  String.prefix needle hay ||
  match hay with
  | EmptyString => false
  | String _ hay' => is_substring needle hay'
  end.

(** [key in x] for a string [key]: key membership on a dict, substring
    on a string, element membership on a list, [TypeError] ([None])
    otherwise. *)
Definition py_in (key : string) (x : json) : option bool :=
  match x with
  | JDict fields => Some (bool_decide (key ∈ fields.*1))
  | JStr s => Some (is_substring key s)
  | JList items =>
      Some (existsb (λ y, match y with JStr s => String.eqb s key | _ => false end) items)
  | JNull | JBool _ | JInt _ | JFloat _ => None
  end.

(** [all(p(x) for x in xs)] for a test that may raise: the first
    [false] ends the scan, an exception before it escapes. *)
Fixpoint py_all {A} (p : A → option bool) (xs : list A) : option bool :=
  match xs with
  | [] => Some true
  | x :: xs' =>
      match p x with
      | Some true => py_all p xs'
      | Some false => Some false
      | None => None
      end
  end.

(** [a and b] where [b] is evaluated only when [a] is true. *)
Definition py_and (a : option bool) (b : option bool) : option bool :=
  match a with
  | Some true => b
  | other => other
  end.

Definition candidates (pf : platform) : list string :=
  (if frozen pf then [exe_dir pf] else []) ++ [cwd pf; here pf].

(** The loop over the candidates.  [accept] is the body of the loop
    for one candidate: [Some data] when the function returns [data],
    [None] when the loop goes on to the next candidate (the file does
    not exist, the test failed, or an exception was caught). *)
Fixpoint probe (accept : file → option (list json)) (kdl_file : string → file)
    (paths : list string) : list json :=
  match paths with
  | [] => FALLBACK_KDL_JSON
  | path :: paths' =>
      match accept (kdl_file path) with
      | Some data => data
      | None => probe accept kdl_file paths'
      end
  end.

Module V200Loader.

(** [isinstance(data, list) and all("code" in e and "display" in e for e in data)] *)
Definition accept (f : file) : option (list json) :=
  match f with
  | JsonFile (JList data) =>
      match py_all (λ e, py_and (py_in "code" e) (py_in "display" e)) data with
      | Some true => Some data
      | _ => None
      end
  | _ => None
  end.

Definition load_kdl_data (pf : platform) : list json :=
  probe accept (kdl_file pf) (candidates pf).

End V200Loader.

Module V110Loader.

(** [isinstance(data, list) and all(isinstance(x, dict) and "code" in x
    and "display" in x for x in data)] *)
Definition accept (f : file) : option (list json) :=
  match f with
  | JsonFile (JList data) =>
      match py_all (λ x, py_and (Some (match x with JDict _ => true | _ => false end))
                           (py_and (py_in "code" x) (py_in "display" x))) data with
      | Some true => Some data
      | _ => None
      end
  | _ => None
  end.

Definition load_kdl_data (pf : platform) : list json :=
  probe accept (kdl_file pf) (candidates pf).

End V110Loader.

(** * The vocabulary of the properties *)

(** [a <= b], as Python has it on [str]. *)
Definition str_le (a b : string) : Prop := PyStr.lt b a = false.

(** [c] comes before [c'] in the ranking: a larger count, or the same
    count and the smaller code. *)
Definition ranked_before (u : gmap string Z) (c c' : string) : Prop :=
  usage_get u c' < usage_get u c ∨
  (usage_get u c' = usage_get u c ∧ PyStr.lt c c' = true).

(** The items of a dict whose values are the usage counts of its keys. *)
Definition counts_dict (u : gmap string Z) (d : list (string * Z)) : Prop :=
  NoDup d.*1 ∧ ∀ k v, (k, v) ∈ d → v = usage_get u k.

(** The whole ranking, before the cut to five. *)
Definition ranking (cat : list entry) (u : gmap string Z) : list (string * Z) :=
  sorted key_lt (valid_usage cat u).

(** The part of the dropdown list after the favourites and their
    separator; the whole list when there is no favourite. *)
Definition remainder_portion (cat : list entry) (u : gmap string Z) : list string :=
  drop (match favorite_displays cat u with
        | [] => 0
        | _ :: _ => S (length (favorite_displays cat u))
        end) (update_dropdown cat u).

(** The part of the dropdown list before the separator. *)
Definition favorites_portion (cat : list entry) (u : gmap string Z) : list string :=
  take (length (favorite_displays cat u)) (update_dropdown cat u).

(** The payload of the specification:
    [{sys:GUN_CID,cid:<caseNumber>,formid:<code>}]. *)
Definition payload_template (caseNumber code : string) : string :=
  ("{sys:GUN_CID,cid:" ++ caseNumber ++ ",formid:" ++ code ++ "}")%string.

(** [p] holds at [d], [d + 1], ..., [d + n - 1]. *)
Fixpoint all_from (d : Z) (n : nat) (p : Z → bool) : bool :=
  match n with
  | O => true
  | S n' => p d && all_from (d + 1) n' p
  end.

(** [p] holds at [1], ..., [n]. *)
Definition all_upto (n : nat) (p : Z → bool) : bool := all_from 1 n p.

(** The printer resolutions covered, in dots per inch. *)
Definition MAX_DPI : Z := 9600.

(** The float products [k * CM_TO_IN] of the source, for the literals
    [2.5], [4], [0.4], [0.2] and [0.7]. *)
Definition KC_25 : spec_float :=
  Eval vm_compute in PyFloat.mul (PyFloat.literal 25 10) CM_TO_IN.
Definition KC_4 : spec_float :=
  Eval vm_compute in PyFloat.mul (PyFloat.literal 4 1) CM_TO_IN.
Definition KC_04 : spec_float :=
  Eval vm_compute in PyFloat.mul (PyFloat.literal 4 10) CM_TO_IN.
Definition KC_02 : spec_float :=
  Eval vm_compute in PyFloat.mul (PyFloat.literal 2 10) CM_TO_IN.
Definition KC_07 : spec_float :=
  Eval vm_compute in PyFloat.mul (PyFloat.literal 7 10) CM_TO_IN.

(** [int(kc * dpi)] is the integer part of the exact product
    [k10/10 × 0.3937007874 × dpi]. *)
Definition px_exact (k10 : Z) (kc : spec_float) (dpi : Z) : bool :=
  match PyFloat.mul_int kc dpi ≫= PyFloat.to_int with
  | Some px => (px =? LabelSpec.trunc_cm k10 dpi)%Z
  | None => false
  end.

(** An element with both keys, as each version tests it. *)
Definition has_keys_V200 (e : json) : Prop :=
  py_in "code" e = Some true ∧ py_in "display" e = Some true.

Definition has_keys_V110 (x : json) : Prop :=
  ∃ fields, x = JDict fields ∧ "code" ∈ fields.*1 ∧ "display" ∈ fields.*1.

(** ** The inputs of the examples *)

(** [{"C34": 3, "A01": 1}] *)
Definition usage_C34_A01 : gmap string Z := <["C34" := 3]> (<["A01" := 1]> ∅).

(** A catalog whose only display is the separator string. *)
Definition separator_catalog : list entry := [Entry "X" "---"].

(** A state of the fallback catalog: A01 used once, case number
    [" 4711 "] typed, the display of C34 selected. *)
Definition st_C34_selected : state :=
  State (<["A01" := 1]> ∅) " 4711 " "Bösartige Neubildung: Bronchien und Lunge" None [].

(** Not frozen; the file in the working directory exists but cannot be
    read; the file next to the source is a list of one object whose
    two fields are numbers. *)
Definition pf_cwd_unreadable : platform :=
  Platform false "exe" "cwd" "src"
    (λ dir, if String.eqb dir "cwd" then Unreadable
            else if String.eqb dir "src"
                 then JsonFile (JList [JDict [("code", JInt 1); ("display", JInt 2)]])
                 else NoFile).

(** * The rest of the program *)

(** ** The launch parameter: the [__main__] block *)

Module Launch.

(** [c.lower()] for one byte of the UTF-8 text: an ASCII capital goes
    to its small letter.  Python maps a character outside ASCII to an
    ASCII one in two cases only, U+0130 (to [i] and a combining dot) and
    U+212A (to [k]); the program compares the lowered text with
    ["fall="] and with the three flags and with nothing else, and
    neither letter occurs there, so the bytes outside ASCII are left as
    they are. *)
Definition lower_char (c : ascii) : ascii :=
  let n := N_of_ascii c in
  if ((65 <=? n) && (n <=? 90))%N then ascii_of_N (n + 32) else c.

Fixpoint lower (s : string) : string :=
  match s with
  | EmptyString => EmptyString
  | String c s' => String (lower_char c) (lower s')
  end.

(** [s.partition("=")] without the separator: the text before the
    first ["="], and the text after it when there is one. *)
Fixpoint partition_eq (s : string) : string * option string :=
  match s with
  | EmptyString => (EmptyString, None)
  | String c s' =>
      if Ascii.eqb c "=" then (EmptyString, Some s')
      else let '(before, after) := partition_eq s' in (String c before, after)
  end.

(** [s.split("=", 1)] *)
Definition split_eq (s : string) : list string :=
  match partition_eq s with
  | (before, Some after) => [before; after]
  | (before, None) => [before]
  end.

(** How the block ends: the application starts with [fall_arg], or
    the index [[1]] raises and the program stops. *)
Inductive launch :=
| Started (fall_arg : option string)
| IndexError.

(** The loop over [sys.argv[1:]]. *)
Fixpoint parse_args (args : list string) : launch :=
  match args with
  | [] => Started None
  | a :: rest =>
      let s := PyStr.strip a in
      let low := lower s in
      if String.prefix "fall=" low then
        match split_eq s !! 1%nat with
        | Some v => Started (Some v)
        | None => IndexError
        end
      else if bool_decide (low ∈ ["--fall"; "/fall"; "-fall"]) then
        match rest with
        | v :: _ => Started (Some v)
        | [] => Started None
        end
      else parse_args rest
  end.

(** Whether the loop stops at this argument. *)
Definition is_fall_arg (a : string) : bool :=
  String.prefix "fall=" (lower (PyStr.strip a))
  || bool_decide (lower (PyStr.strip a) ∈ ["--fall"; "/fall"; "-fall"]).

End Launch.

(** [KDLQRApp.__init__] with the module-level [usage_data] loaded: the
    entry holds [fallnummer_param] when that is a non-empty string,
    nothing is selected, there is no QR image, and the dropdown list is
    filled by [update_dropdown]. *)
Definition init (KDL_DATA : list entry) (usage : gmap string Z)
    (fallnummer_param : option string) : state :=
  State usage
    (match fallnummer_param with
     | Some v => if String.eqb v "" then "" else v
     | None => ""
     end)
    "" None (update_dropdown KDL_DATA usage).

(** ** The user at the window *)

(** What the user can do between two handlers: replace the text of the
    case-number entry, pick the [i]-th value of the read-only dropdown
    list, press one of the buttons. *)
Inductive action :=
| EnterFallnummer (text : string)
| SelectValue (i : nat)
| ClickGenerate
| ClickReset.

Definition step (KDL_DATA : list entry) (qr_fits : string → bool)
    (a : action) (st : state) : state * list effect :=
  match a with
  | EnterFallnummer text =>
      (State (usage_data st) text (kdl_var st) (qr_pil st) (kdl_dropdown st), [])
  | SelectValue i =>
      match kdl_dropdown st !! i with
      | Some v =>
          (State (usage_data st) (fallnummer_entry st) v (qr_pil st) (kdl_dropdown st), [])
      | None => (st, [])
      end
  | ClickGenerate =>
      let '(_, st', log) := generate_qr KDL_DATA qr_fits st in (st', log)
  | ClickReset => reset_favorites KDL_DATA st
  end.

(** A sequence of actions, with the effects of all of them in order. *)
Fixpoint run (KDL_DATA : list entry) (qr_fits : string → bool)
    (acts : list action) (st : state) : state * list effect :=
  match acts with
  | [] => (st, [])
  | a :: acts' =>
      let '(st1, log1) := step KDL_DATA qr_fits a st in
      let '(st2, log2) := run KDL_DATA qr_fits acts' st1 in
      (st2, log1 ++ log2)
  end.

(** The mapping of the last [save_usage] call of a log. *)
Fixpoint last_saved (log : list effect) : option (gmap string Z) :=
  match log with
  | [] => None
  | e :: log' =>
      match last_saved log' with
      | Some data => Some data
      | None => match e with SaveUsage data => Some data | _ => None end
      end
  end.

(** ** Printing: [print_qr] *)

(** The printing side: whether the user confirms the print dialog of
    V200 ([None] when opening the dialog raises), the resolution the
    device context reports ([None] when opening it raises), and whether
    the imaging and printing calls take a layout without raising. *)
Record printer := Printer {
  dialog : option bool;
  device_dpi : option (Z * Z);
  accepts : layout → bool
}.

(** What is sent to the printer: the layout, the payload of the QR
    image and the two text lines.  The date line holds the clock and is
    left out. *)
Record label := Label {
  label_layout : layout;
  label_qr : string;
  label_fallnummer : string;
  label_kdl : string
}.

Inductive print_result :=
| NoImage
| Cancelled
| PrintFailed
| Printed (l : label).

(** The part common to both versions, after the QR image was found
    and the device opened. *)
Definition print_page (print_layout : Z → Z → option layout)
    (pr : printer) (st : state) (payload : string) : print_result :=
  match device_dpi pr with
  | None => PrintFailed
  | Some (dpi_x, dpi_y) =>
      match print_layout dpi_x dpi_y with
      | None => PrintFailed
      | Some l =>
          if accepts pr l then
            Printed (Label l payload
                       ("Fallnummer: " ++ PyStr.strip (fallnummer_entry st))%string
                       ("KDL: " ++ PyStr.strip (kdl_var st))%string)
          else PrintFailed
      end
  end.

(** V110 prints on the default printer. *)
Definition print_qr_V110 (pr : printer) (st : state) : print_result :=
  match qr_pil st with
  | None => NoImage
  | Some payload => print_page V110.print_layout pr st payload
  end.

(** V200 asks with a print dialog first. *)
Definition print_qr_V200 (pr : printer) (st : state) : print_result :=
  match qr_pil st with
  | None => NoImage
  | Some payload =>
      match dialog pr with
      | Some true => print_page V200.print_layout pr st payload
      | Some false => Cancelled
      | None => PrintFailed
      end
  end.

(** ** Words for the properties of the rest *)

(** The text has no comma. *)
Fixpoint no_comma (s : string) : bool :=
  match s with
  | EmptyString => true
  | String c s' => negb (Ascii.eqb c ",") && no_comma s'
  end.

(** The rectangle of the QR block and the three text anchors lie in
    the label image. *)
Definition inside_image (l : layout) : Prop :=
  let '(w, h) := image_size l in
  1 ≤ (qr_size l).1 ≤ w ∧ 1 ≤ (qr_size l).2 ≤ h
  ∧ 0 ≤ (fallnummer_pos l).1 < w ∧ 0 ≤ (fallnummer_pos l).2 < h
  ∧ 0 ≤ (kdl_pos l).1 < w ∧ 0 ≤ (kdl_pos l).2 < h
  ∧ 0 ≤ (date_pos l).1 < w ∧ 0 ≤ (date_pos l).2 < h.

(** The dropdown list is the one [update_dropdown] makes of the
    current counts, and the selection is empty or a value of such a
    list. *)
Definition in_sync (cat : list entry) (st : state) : Prop :=
  kdl_dropdown st = update_dropdown cat (usage_data st)
  ∧ (kdl_var st = "" ∨ kdl_var st = SEPARATOR ∨ kdl_var st ∈ display <$> cat).

(** What was saved last is the current mapping; if nothing was saved
    the mapping is the one before. *)
Definition saved_is_current (usage_before : gmap string Z) (st : state)
    (log : list effect) : Prop :=
  match last_saved log with
  | Some data => data = usage_data st
  | None => usage_data st = usage_before
  end.

(** * Properties *)

(** ** The order on strings *)

Section StringOrder.

Lemma str_lt_iff a b : PyStr.lt a b = true ↔ String_as_OT.lt a b.
Proof.
  unfold PyStr.lt, String.ltb. rewrite <- String_as_OT.cmp_lt.
  unfold String_as_OT.cmp. destruct (String.compare a b); intuition congruence.
Qed.

Lemma str_lt_irrefl a : PyStr.lt a a = false.
Proof.
  destruct (PyStr.lt a a) eqn:E; [|done].
  apply str_lt_iff in E. by apply String_as_OT.lt_not_eq in E.
Qed.

Lemma str_lt_trans a b c :
  PyStr.lt a b = true → PyStr.lt b c = true → PyStr.lt a c = true.
Proof. rewrite !str_lt_iff. apply String_as_OT.lt_trans. Qed.

Lemma str_lt_asym a b : PyStr.lt a b = true → PyStr.lt b a = false.
Proof.
  intros H. destruct (PyStr.lt b a) eqn:E; [|done].
  pose proof (str_lt_trans _ _ _ H E) as Haa. by rewrite str_lt_irrefl in Haa.
Qed.

Lemma str_lt_total a b : PyStr.lt a b = false → a = b ∨ PyStr.lt b a = true.
Proof.
  unfold PyStr.lt, String.ltb. rewrite (String.compare_antisym a b).
  destruct (String.compare b a) eqn:E; simpl; try done.
  - intros _. left. symmetry. by apply String.compare_eq_iff.
  - intros _. by right.
Qed.

Lemma str_le_trans a b c : str_le a b → str_le b c → str_le a c.
Proof.
  unfold str_le. intros Hab Hbc.
  destruct (PyStr.lt c a) eqn:E; [|done].
  destruct (str_lt_total _ _ Hab) as [->|Hab']; [congruence|].
  destruct (str_lt_total _ _ Hbc) as [->|Hbc']; [congruence|].
  pose proof (str_lt_trans _ _ _ E Hab') as H. apply str_lt_asym in H. congruence.
Qed.

End StringOrder.

(** ** [sorted] sorts *)

Section SortedFacts.
Context {A : Type} (lt : A → A → bool).

Lemma insert_sorted_perm x l : insert_sorted lt x l ≡ₚ x :: l.
Proof.
  induction l as [|y l IH]; simpl; [done|].
  destruct (lt y x); [|done]. rewrite IH. apply Permutation_swap.
Qed.

Lemma sorted_perm l : sorted lt l ≡ₚ l.
Proof.
  induction l as [|x l IH]; simpl; [done|].
  by rewrite insert_sorted_perm, IH.
Qed.

Hypothesis lt_asym : ∀ x y, lt x y = true → lt y x = false.
Hypothesis le_trans : ∀ x y z, lt y x = false → lt z y = false → lt z x = false.

Lemma insert_sorted_sorted x l :
  StronglySorted (λ a b, lt b a = false) l →
  StronglySorted (λ a b, lt b a = false) (insert_sorted lt x l).
Proof.
  induction 1 as [|y l Hl IH Hy]; simpl.
  - repeat constructor.
  - destruct (lt y x) eqn:E.
    + constructor; [done|].
      rewrite Forall_forall in Hy |- *. intros z Hz.
      rewrite insert_sorted_perm in Hz. apply elem_of_cons in Hz as [->|Hz]; auto.
    + constructor; [by constructor|].
      constructor; [done|].
      rewrite Forall_forall in Hy |- *. intros z Hz. eauto.
Qed.

Lemma sorted_sorted l : StronglySorted (λ a b, lt b a = false) (sorted lt l).
Proof.
  induction l as [|x l IH]; simpl; [constructor|]. by apply insert_sorted_sorted.
Qed.
End SortedFacts.

Lemma StronglySorted_sublist {A} (R : relation A) (l1 l2 : list A) :
  l1 `sublist_of` l2 → StronglySorted R l2 → StronglySorted R l1.
Proof.
  induction 1 as [|x l1 l2 Hsub IH|x l1 l2 Hsub IH]; intros Hs.
  - constructor.
  - apply StronglySorted_cons in Hs as [Hx Hs]. constructor; [auto|].
    rewrite Forall_forall in Hx |- *. intros y Hy. apply Hx.
    by apply (sublist_subseteq _ _ Hsub).
  - apply StronglySorted_cons in Hs as [_ Hs]. auto.
Qed.

Lemma filter_all {A} (P : A → Prop) `{∀ x, Decision (P x)} (l : list A) :
  Forall P l → filter P l = l.
Proof.
  induction 1 as [|x l Hx Hl IH]; [done|].
  rewrite filter_cons_True by done. by rewrite IH.
Qed.

Lemma filter_none {A} (P : A → Prop) `{∀ x, Decision (P x)} (l : list A) :
  Forall (λ x, ¬ P x) l → filter P l = [].
Proof.
  induction 1 as [|x l Hx Hl IH]; [done|].
  by rewrite filter_cons_False.
Qed.

(** ** The sort key of the favourites *)

Section KeyOrder.

Lemma key_lt_asym (x y : string * Z) : key_lt x y = true → key_lt y x = false.
Proof.
  destruct x as [k v], y as [k' v']. unfold key_lt; simpl.
  destruct (Z.eqb_spec (- v) (- v')), (Z.eqb_spec (- v') (- v)); try lia.
  apply str_lt_asym.
Qed.

Lemma key_le_trans (x y z : string * Z) :
  key_lt y x = false → key_lt z y = false → key_lt z x = false.
Proof.
  destruct x as [kx vx], y as [ky vy], z as [kz vz]. unfold key_lt; simpl.
  destruct (Z.eqb_spec (- vy) (- vx)), (Z.eqb_spec (- vz) (- vy)),
    (Z.eqb_spec (- vz) (- vx)); try lia.
  intros H1 H2. exact (str_le_trans kx ky kz H1 H2).
Qed.

Lemma key_lt_total (x y : string * Z) :
  key_lt x y = false → x.1 ≠ y.1 → key_lt y x = true.
Proof.
  destruct x as [k v], y as [k' v']. unfold key_lt; simpl.
  destruct (Z.eqb_spec (- v) (- v')), (Z.eqb_spec (- v') (- v)); try lia.
  intros H Hne. destruct (str_lt_total _ _ H); [done|auto].
Qed.

End KeyOrder.

Lemma key_lt_ranked u c c' :
  key_lt (c, usage_get u c) (c', usage_get u c') = true ↔ ranked_before u c c'.
Proof.
  unfold key_lt, ranked_before; simpl.
  destruct (Z.eqb_spec (- usage_get u c) (- usage_get u c')).
  - split; [intros; right; split; [lia|done]|intros [?|[_ ?]]; [lia|done]].
  - rewrite Z.ltb_lt. split; [intros; left; lia|intros [?|[? _]]; lia].
Qed.

(** ** The dict of [valid_usage] *)

Section DictFacts.

Lemma dict_set_keys k v d k' :
  k' ∈ (dict_set k v d).*1 ↔ k' = k ∨ k' ∈ d.*1.
Proof.
  induction d as [|[k0 v0] d IH]; simpl.
  - rewrite list_elem_of_singleton, elem_of_nil. tauto.
  - destruct (String.eqb_spec k0 k) as [->|Hne]; simpl.
    + rewrite !elem_of_cons. tauto.
    + rewrite !elem_of_cons, IH. tauto.
Qed.

Lemma dict_set_NoDup k v d : NoDup d.*1 → NoDup (dict_set k v d).*1.
Proof.
  induction d as [|[k0 v0] d IH]; simpl; intros Hd.
  - apply NoDup_singleton.
  - destruct (String.eqb_spec k0 k) as [->|Hne]; simpl; [done|].
    apply NoDup_cons in Hd as [Hk0 Hd]. apply NoDup_cons. split; [|auto].
    rewrite dict_set_keys. intros [?|?]; [congruence|done].
Qed.

Lemma dict_set_elem k v d k' v' :
  NoDup d.*1 →
  (k', v') ∈ dict_set k v d ↔ (k' = k ∧ v' = v) ∨ (k' ≠ k ∧ (k', v') ∈ d).
Proof.
  induction d as [|[k0 v0] d IH]; simpl; intros Hd.
  - rewrite list_elem_of_singleton. split.
    + intros [= -> ->]. by left.
    + intros [[-> ->]|[_ H]]; [done|]. by apply elem_of_nil in H.
  - apply NoDup_cons in Hd as [Hk0 Hd].
    destruct (String.eqb_spec k0 k) as [->|Hne].
    + rewrite !elem_of_cons. split.
      * intros [[= -> ->]|H]; [by left|]. right. split; [|by right].
        intros ->. apply Hk0. apply list_elem_of_fmap. by exists (k, v').
      * intros [[-> ->]|[Hne [[= -> ->]|H]]]; [by left|done|by right].
    + rewrite !elem_of_cons, (IH Hd). split.
      * intros [[= -> ->]|[[-> ->]|[? ?]]]; [right; split; [done|by left]|by left|].
        right. split; [done|by right].
      * intros [[-> ->]|[? [[= -> ->]|?]]]; [right; by left|by left|].
        right. right. done.
Qed.

End DictFacts.

(** ** The ranker *)

Section RankerFacts.
Variable cat : list entry.
Variable u : gmap string Z.

Local Abbreviation counts_dict := (counts_dict u).
Local Abbreviation ranking := (ranking cat u).

Lemma counts_dict_fold (l : list entry) (d : list (string * Z)) :
  counts_dict d →
  let r := fold_left (λ d e, dict_set (code e) (usage_get u (code e)) d) l d in
  counts_dict r ∧ ∀ k, k ∈ r.*1 ↔ k ∈ d.*1 ∨ k ∈ code <$> l.
Proof.
  revert d. induction l as [|e l IH]; intros d Hd; simpl.
  - split; [done|]. intros k. rewrite elem_of_nil. tauto.
  - destruct Hd as [Hnd Hv].
    destruct (IH (dict_set (code e) (usage_get u (code e)) d)) as [Hr Hk].
    { split; [by apply dict_set_NoDup|].
      intros k v. rewrite (dict_set_elem _ _ _ _ _ Hnd).
      intros [[-> ->]|[_ H]]; [done|by apply Hv]. }
    split; [done|]. intros k. rewrite Hk, dict_set_keys, elem_of_cons. tauto.
Qed.

Lemma valid_usage_counts : counts_dict (valid_usage cat u).
Proof.
  apply (counts_dict_fold cat []). split; [constructor|].
  intros k v H. by apply elem_of_nil in H.
Qed.

Lemma valid_usage_keys k : k ∈ (valid_usage cat u).*1 ↔ k ∈ code <$> cat.
Proof.
  destruct (counts_dict_fold cat []) as [_ H].
  { split; [constructor|]. intros ? ? H. by apply elem_of_nil in H. }
  unfold valid_usage. rewrite H. simpl. rewrite elem_of_nil. tauto.
Qed.

Lemma valid_usage_elem k v :
  (k, v) ∈ valid_usage cat u ↔ k ∈ code <$> cat ∧ v = usage_get u k.
Proof.
  destruct valid_usage_counts as [_ Hv]. split.
  - intros H. split; [|by apply Hv].
    apply valid_usage_keys. apply list_elem_of_fmap. by exists (k, v).
  - intros [Hk ->]. apply valid_usage_keys in Hk.
    apply list_elem_of_fmap in Hk as [[k' v'] [-> H]]. simpl.
    by rewrite <- (Hv _ _ H).
Qed.

Lemma ranking_elem k v :
  (k, v) ∈ ranking ↔ k ∈ code <$> cat ∧ v = usage_get u k.
Proof. unfold ranking. by rewrite sorted_perm, valid_usage_elem. Qed.

Lemma ranking_NoDup : NoDup ranking.*1.
Proof.
  unfold ranking. rewrite sorted_perm. apply valid_usage_counts.
Qed.

Lemma ranking_sorted : StronglySorted (λ a b, key_lt a b = true) ranking.
Proof.
  pose proof ranking_NoDup as Hnd.
  pose proof (sorted_sorted key_lt key_lt_asym key_le_trans (valid_usage cat u)) as Hs.
  fold ranking in Hs. induction Hs as [|x l Hs IH Hx]; [constructor|].
  simpl in Hnd. apply NoDup_cons in Hnd as [Hx' Hnd]. constructor; [auto|].
  rewrite Forall_forall in Hx |- *. intros y Hy.
  apply key_lt_total; [by apply Hx|].
  intros Heq. apply Hx'. rewrite <- Heq. apply list_elem_of_fmap. by exists y.
Qed.

Lemma favorites_sorted_sublist : favorites_sorted cat u `sublist_of` ranking.
Proof. apply sublist_take. Qed.

Lemma favorite_codes_elem c :
  c ∈ favorite_codes cat u ↔
  (c, usage_get u c) ∈ favorites_sorted cat u ∧ 0 < usage_get u c.
Proof.
  unfold favorite_codes. rewrite list_elem_of_fmap. split.
  - intros [[k v] [-> H]]. apply list_elem_of_filter in H as [Hpos H]. simpl in *.
    split; [|done].
    assert ((k, v) ∈ ranking) as Hr
      by (by apply (sublist_subseteq _ _ favorites_sorted_sublist)).
    apply ranking_elem in Hr as [_ ->]. done.
  - intros [H Hpos]. exists (c, usage_get u c). split; [done|].
    apply list_elem_of_filter. done.
Qed.

Lemma favorite_codes_catalog c : c ∈ favorite_codes cat u → c ∈ code <$> cat.
Proof.
  rewrite favorite_codes_elem. intros [H _].
  apply (sublist_subseteq _ _ favorites_sorted_sublist) in H.
  by apply ranking_elem in H as [? _].
Qed.

Lemma favorite_codes_positive c : c ∈ favorite_codes cat u → 0 < usage_get u c.
Proof. rewrite favorite_codes_elem. tauto. Qed.

Lemma favorite_codes_length : (length (favorite_codes cat u) ≤ 5)%nat.
Proof.
  unfold favorite_codes, favorites_sorted. rewrite length_fmap.
  etransitivity; [apply length_filter|]. rewrite length_take. lia.
Qed.

Lemma ranked_fst (l : list (string * Z)) :
  StronglySorted (λ a b, key_lt a b = true) l →
  (∀ kv, kv ∈ l → kv.2 = usage_get u kv.1) →
  StronglySorted (ranked_before u) l.*1.
Proof.
  induction 1 as [|x l Hs IH Hx]; intros Hv; [constructor|]. csimpl.
  constructor.
  - apply IH. intros kv H. apply Hv. by right.
  - rewrite Forall_fmap, Forall_forall. rewrite Forall_forall in Hx.
    intros y Hy. simpl. apply key_lt_ranked.
    rewrite <- (Hv x) by left. rewrite <- (Hv y) by (by right).
    destruct x, y. by apply Hx.
Qed.

Lemma favorite_codes_ranked : StronglySorted (ranked_before u) (favorite_codes cat u).
Proof.
  unfold favorite_codes.
  set (P := λ kv : string * Z, 0 < usage_get u kv.1).
  assert (filter P (favorites_sorted cat u) `sublist_of` ranking) as Hsub.
  { etransitivity; [apply sublist_filter|apply favorites_sorted_sublist]. }
  apply ranked_fst.
  - exact (StronglySorted_sublist _ _ _ Hsub ranking_sorted).
  - intros [k v] H. apply (sublist_subseteq _ _ Hsub) in H.
    by apply ranking_elem in H as [_ ->].
Qed.

Lemma favorite_codes_NoDup : NoDup (favorite_codes cat u).
Proof.
  unfold favorite_codes.
  apply (sublist_NoDup _ ranking.*1); [apply ranking_NoDup|].
  apply fmap_sublist. etransitivity; [apply sublist_filter|apply favorites_sorted_sublist].
Qed.

(** A used catalog code is left out of the favourites only when
    five codes rank before it. *)
Lemma favorite_codes_top c :
  c ∈ code <$> cat → 0 < usage_get u c → c ∉ favorite_codes cat u →
  length (favorite_codes cat u) = 5%nat ∧
  ∀ f, f ∈ favorite_codes cat u → ranked_before u f c.
Proof.
  intros Hc Hpos Hnot.
  assert ((c, usage_get u c) ∈ ranking) as Hr by (by apply ranking_elem).
  rewrite <- (take_drop 5 ranking) in Hr. apply elem_of_app in Hr as [Hr|Hr].
  { exfalso. apply Hnot. by apply favorite_codes_elem. }
  assert (∀ kv, kv ∈ take 5 ranking → ranked_before u kv.1 c ∧ kv.2 = usage_get u kv.1)
    as Hbefore.
  { intros [k v] Hk.
    assert ((k, v) ∈ ranking) as Hin by (by apply (subseteq_take 5)).
    apply ranking_elem in Hin as [_ ->]. split; [|done]. simpl.
    apply key_lt_ranked.
    pose proof ranking_sorted as Hs. rewrite <- (take_drop 5 ranking) in Hs.
    by apply (StronglySorted_app_1_elem_of _ _ _ _ _ Hs). }
  assert (filter (λ kv : string * Z, 0 < usage_get u kv.1) (take 5 ranking)
          = take 5 ranking) as Hall.
  { apply filter_all. apply Forall_forall. intros kv Hkv.
    destruct (Hbefore kv Hkv) as [[?|[? _]] _]; lia. }
  split.
  - unfold favorite_codes, favorites_sorted. fold ranking. rewrite Hall.
    rewrite length_fmap, length_take.
    destruct (list_elem_of_lookup_1 _ _ Hr) as [i Hi].
    apply lookup_lt_Some in Hi. rewrite length_drop in Hi. lia.
  - intros f Hf. unfold favorite_codes, favorites_sorted in Hf. fold ranking in Hf.
    rewrite Hall in Hf. apply list_elem_of_fmap in Hf as [kv [-> Hkv]].
    by apply Hbefore.
Qed.

End RankerFacts.

(** ** The shape of the dropdown list *)

Section DropdownFacts.
Variable cat : list entry.
Variable u : gmap string Z.

Local Abbreviation remainder_portion := (remainder_portion cat u).
Local Abbreviation favorites_portion := (favorites_portion cat u).

Lemma update_dropdown_split :
  update_dropdown cat u =
    (favorite_displays cat u
     ++ (match favorite_displays cat u with [] => [] | _ :: _ => [SEPARATOR] end)
     ++ remaining_displays cat u)%list.
Proof.
  unfold update_dropdown. destruct (favorite_displays cat u); [done|].
  by rewrite <- !app_assoc.
Qed.

Lemma favorites_portion_eq : favorites_portion = favorite_displays cat u.
Proof.
  unfold favorites_portion. rewrite update_dropdown_split.
  by rewrite take_app_length.
Qed.

Lemma remainder_portion_eq : remainder_portion = remaining_displays cat u.
Proof.
  unfold remainder_portion. rewrite update_dropdown_split.
  destruct (favorite_displays cat u) as [|d l] eqn:E; [done|].
  rewrite app_assoc.
  replace (S (length (d :: l))) with (length ((d :: l) ++ [SEPARATOR])%list)
    by (rewrite length_app; simpl; lia).
  by rewrite drop_app_length.
Qed.

Lemma favorite_displays_elem d :
  d ∈ favorite_displays cat u ↔
  ∃ e, e ∈ cat ∧ display e = d ∧ code e ∈ favorite_codes cat u.
Proof.
  unfold favorite_displays. rewrite list_elem_of_fmap. split.
  - intros [e [-> He]]. apply list_elem_of_filter in He as [? ?]. by exists e.
  - intros [e (He & <- & Hc)]. exists e. split; [done|].
    by apply list_elem_of_filter.
Qed.

Lemma favorite_displays_sublist :
  favorite_displays cat u `sublist_of` (display <$> cat).
Proof. apply fmap_sublist, sublist_filter. Qed.

(** There is a favourite display exactly when there is a favourite code. *)
Lemma favorite_displays_nil : favorite_displays cat u = [] ↔ favorite_codes cat u = [].
Proof.
  split; intros H.
  - destruct (favorite_codes cat u) as [|c l] eqn:E; [done|]. exfalso.
    assert (c ∈ code <$> cat) as Hc.
    { apply favorite_codes_catalog with u. rewrite E. by left. }
    apply list_elem_of_fmap in Hc as [e [-> He]].
    assert (display e ∈ favorite_displays cat u) as Hd.
    { apply favorite_displays_elem. exists e. rewrite E. split_and!; [done..|by left]. }
    rewrite H in Hd. by apply elem_of_nil in Hd.
  - unfold favorite_displays. rewrite H.
    rewrite filter_none; [done|]. apply Forall_forall. intros e _. apply not_elem_of_nil.
Qed.

Lemma remaining_displays_elem d :
  d ∈ remaining_displays cat u ↔ d ∈ display <$> cat ∧ d ∉ favorite_displays cat u.
Proof.
  unfold remaining_displays. rewrite !list_elem_of_fmap. split.
  - intros [e [-> He]]. apply list_elem_of_filter in He as [Hn He].
    rewrite sorted_perm in He. split; [by exists e|done].
  - intros [[e [-> He]] Hn]. exists e. split; [done|].
    apply list_elem_of_filter. split; [done|]. by rewrite sorted_perm.
Qed.

Lemma remaining_displays_perm :
  remaining_displays cat u ≡ₚ
    filter (λ d, d ∉ favorite_displays cat u) (display <$> cat).
Proof.
  unfold remaining_displays.
  rewrite <- (sorted_perm display_lt cat) at 2.
  generalize (sorted display_lt cat). intros l.
  induction l as [|e l IH]; [done|]. csimpl.
  rewrite !filter_cons. destruct (decide (display e ∉ favorite_displays cat u)); csimpl;
    by rewrite IH.
Qed.

Lemma display_lt_asym e e' : display_lt e e' = true → display_lt e' e = false.
Proof. apply str_lt_asym. Qed.

Lemma display_le_trans e1 e2 e3 :
  display_lt e2 e1 = false → display_lt e3 e2 = false → display_lt e3 e1 = false.
Proof. apply str_le_trans. Qed.

Lemma sorted_displays_sorted (l : list entry) :
  StronglySorted str_le (display <$> sorted display_lt l).
Proof.
  apply (StronglySorted_fmap display (λ a b, display_lt b a = false)); [done|].
  apply sorted_sorted; [apply display_lt_asym|apply display_le_trans].
Qed.

Lemma remaining_displays_sorted : StronglySorted str_le (remaining_displays cat u).
Proof.
  unfold remaining_displays.
  apply StronglySorted_sublist with (display <$> sorted display_lt cat).
  - apply fmap_sublist, sublist_filter.
  - apply sorted_displays_sorted.
Qed.

(** With no favourite the dropdown is the sorted catalog. *)
Lemma update_dropdown_no_favorites :
  favorite_codes cat u = [] →
  update_dropdown cat u = display <$> sorted display_lt cat.
Proof.
  intros H. apply favorite_displays_nil in H.
  unfold update_dropdown, remaining_displays. rewrite H. simpl.
  rewrite filter_all; [done|]. apply Forall_forall. intros e _. apply not_elem_of_nil.
Qed.

End DropdownFacts.

Lemma lookup_unique_middle {A} (l1 l2 : list A) (s : A) (i : nat) :
  s ∉ l1 → s ∉ l2 → (l1 ++ s :: l2) !! i = Some s → i = length l1.
Proof.
  intros H1 H2 Hi.
  destruct (Nat.lt_trichotomy i (length l1)) as [Hlt|[->|Hgt]]; [|done|].
  - rewrite lookup_app_l in Hi by done. exfalso. apply H1.
    by apply list_elem_of_lookup_2 with i.
  - rewrite lookup_app_r in Hi by lia.
    destruct (i - length l1)%nat as [|k] eqn:E; [lia|]. simpl in Hi.
    exfalso. apply H2. by apply list_elem_of_lookup_2 with k.
Qed.

(** * The claims *)

(** C1, counterexample.  For the fallback catalog and the usage
    [{"C34": 3, "A01": 1}] the dropdown list is not the list of the
    claim, which starts with the display of C34 followed by the display
    of A01: the ranked favourite codes are C34 then A01, yet the list
    starts with the display of A01. *)
Lemma rank_scenario_not_ranked_order :
  favorite_codes FALLBACK_KDL_DATA usage_C34_A01 = ["C34"; "A01"] ∧
  update_dropdown FALLBACK_KDL_DATA usage_C34_A01 ≠
    [ "Bösartige Neubildung: Bronchien und Lunge";
      "Cholera durch Vibrio cholerae 01, Biovar cholerae";
      "---";
      "Akute Appendizitis"; "Asthma bronchiale"; "Essentielle (primäre) Hypertonie";
      "HIV-Krankheit, durch HIV-1-Virus"; "Nicht insulinabhängiger Diabetes mellitus";
      "Rückenschmerzen"; "Salmonellenenteritis"; "Sonstige Krankheiten der Harnorgane" ].
Proof.
  split; [by vm_compute|]. vm_compute. intros H. discriminate H.
Qed.

(** C1, as amended.  For every catalog and usage mapping the favourites
    portion of the dropdown list is the list of the displays of the
    catalog entries whose code is a favourite code, in catalog order.
    The favourite codes are at most five catalog codes with a positive
    count, ordered by count descending then code ascending, and a used
    catalog code is left out only when five codes rank before it.  For
    the fallback catalog with usage [{"C34": 3, "A01": 1}] the list is
    the display of A01, the display of C34, the separator, and the
    other eight displays in alphabetical order. *)
Theorem rank_favorites_in_catalog_order :
  (∀ (cat : list entry) (u : gmap string Z),
     favorites_portion cat u = favorite_displays cat u
     ∧ favorites_portion cat u `sublist_of` (display <$> cat)
     ∧ (∀ d, d ∈ favorites_portion cat u ↔
             ∃ e, e ∈ cat ∧ display e = d ∧ code e ∈ favorite_codes cat u)
     ∧ StronglySorted (ranked_before u) (favorite_codes cat u)
     ∧ (length (favorite_codes cat u) ≤ 5)%nat
     ∧ (∀ c, c ∈ favorite_codes cat u → c ∈ code <$> cat ∧ 0 < usage_get u c)
     ∧ (∀ c, c ∈ code <$> cat → 0 < usage_get u c → c ∉ favorite_codes cat u →
             length (favorite_codes cat u) = 5%nat
             ∧ ∀ f, f ∈ favorite_codes cat u → ranked_before u f c))
  ∧ update_dropdown FALLBACK_KDL_DATA usage_C34_A01 =
      [ "Cholera durch Vibrio cholerae 01, Biovar cholerae";
        "Bösartige Neubildung: Bronchien und Lunge";
        "---";
        "Akute Appendizitis"; "Asthma bronchiale"; "Essentielle (primäre) Hypertonie";
        "HIV-Krankheit, durch HIV-1-Virus"; "Nicht insulinabhängiger Diabetes mellitus";
        "Rückenschmerzen"; "Salmonellenenteritis"; "Sonstige Krankheiten der Harnorgane" ].
Proof.
  split; [|by vm_compute].
  intros cat u. rewrite favorites_portion_eq. split_and!.
  - done.
  - apply favorite_displays_sublist.
  - apply favorite_displays_elem.
  - apply favorite_codes_ranked.
  - apply favorite_codes_length.
  - intros c Hc. split; [by apply favorite_codes_catalog with u|
                         by apply favorite_codes_positive with cat].
  - apply favorite_codes_top.
Qed.

(** C6, counterexample.  For the catalog whose only display is ["---"]
    and no usage at all, the dropdown list contains the separator
    string although there is no favourite. *)
Lemma separator_without_favorites :
  SEPARATOR ∈ update_dropdown separator_catalog ∅ ∧
  favorite_codes separator_catalog ∅ = [].
Proof. split; [|by vm_compute]. vm_compute. by left. Qed.

(** C6, as amended.  For every catalog none of whose displays is the
    separator string ["---"], and every usage mapping: the dropdown
    list contains the separator only if there is a favourite (a
    catalog code with a positive count), and the separator is never at
    two adjacent positions of the list. *)
Theorem separator_only_with_favorites (cat : list entry) (u : gmap string Z) :
  SEPARATOR ∉ display <$> cat →
  (SEPARATOR ∈ update_dropdown cat u →
     favorite_codes cat u ≠ [] ∧ ∃ e, e ∈ cat ∧ 0 < usage_get u (code e))
  ∧ (∀ i : nat, update_dropdown cat u !! i = Some SEPARATOR →
                update_dropdown cat u !! S i ≠ Some SEPARATOR).
Proof.
  intros Hsep.
  assert (SEPARATOR ∉ favorite_displays cat u) as Hf.
  { intros H. apply Hsep. by apply (sublist_subseteq _ _ (favorite_displays_sublist cat u)). }
  assert (SEPARATOR ∉ remaining_displays cat u) as Hr.
  { intros H. apply Hsep. by apply remaining_displays_elem in H as [? _]. }
  rewrite update_dropdown_split.
  destruct (favorite_displays cat u) as [|d l] eqn:E.
  - simpl. split; [done|]. intros i Hi. exfalso. apply Hr.
    by apply list_elem_of_lookup_2 with i.
  - split.
    + intros _.
      assert (favorite_codes cat u ≠ []) as Hne.
      { intros H. apply favorite_displays_nil in H. congruence. }
      split; [done|].
      destruct (favorite_codes cat u) as [|c cs] eqn:Ec; [done|].
      assert (c ∈ favorite_codes cat u) as Hc by (rewrite Ec; by left).
      pose proof (favorite_codes_positive _ _ _ Hc) as Hpos.
      apply favorite_codes_catalog, list_elem_of_fmap in Hc as [e [-> He]].
      by exists e.
    + intros i Hi Hi'.
      apply (lookup_unique_middle (d :: l) (remaining_displays cat u)) in Hi; [|done..].
      apply (lookup_unique_middle (d :: l) (remaining_displays cat u)) in Hi'; [|done..].
      lia.
Qed.

Lemma separator_only_with_favorites_witness :
  (SEPARATOR ∉ display <$> FALLBACK_KDL_DATA) ∧
  ((SEPARATOR ∈ update_dropdown FALLBACK_KDL_DATA usage_C34_A01 →
      favorite_codes FALLBACK_KDL_DATA usage_C34_A01 ≠ []
      ∧ ∃ e, e ∈ FALLBACK_KDL_DATA ∧ 0 < usage_get usage_C34_A01 (code e))
   ∧ (∀ i : nat, update_dropdown FALLBACK_KDL_DATA usage_C34_A01 !! i = Some SEPARATOR →
                 update_dropdown FALLBACK_KDL_DATA usage_C34_A01 !! S i ≠ Some SEPARATOR)).
Proof.
  assert (SEPARATOR ∉ display <$> FALLBACK_KDL_DATA) as H
    by (apply (bool_decide_unpack _); vm_compute; exact I).
  split; [exact H|]. exact (separator_only_with_favorites FALLBACK_KDL_DATA usage_C34_A01 H).
Defined.

(** C7.  For every catalog and usage mapping the remainder portion of
    the dropdown list (what follows the separator, or the whole list
    when there is no favourite) holds exactly the catalog displays that
    are not among the favourite displays, each as often as in the
    catalog; it is sorted by display string; and none of its displays
    is among the favourites. *)
Theorem remainder_sorted_without_favorites (cat : list entry) (u : gmap string Z) :
  remainder_portion cat u ≡ₚ
    filter (λ d, d ∉ favorites_portion cat u) (display <$> cat)
  ∧ StronglySorted str_le (remainder_portion cat u)
  ∧ (∀ d, d ∈ remainder_portion cat u → d ∉ favorites_portion cat u).
Proof.
  rewrite remainder_portion_eq, favorites_portion_eq. split_and!.
  - apply remaining_displays_perm.
  - apply remaining_displays_sorted.
  - intros d Hd. by apply remaining_displays_elem in Hd as [_ ?].
Qed.

(** ** Composition: [generate_qr] *)

Lemma qr_data_template fallnummer code :
  qr_data fallnummer code = payload_template fallnummer code.
Proof. reflexivity. Qed.

Lemma lookup_display_Some (l : list entry) d c :
  lookup_display l d = Some c → ∃ e, e ∈ l ∧ display e = d ∧ code e = c.
Proof.
  induction l as [|e l IH]; simpl; [done|].
  destruct (String.eqb_spec (display e) d) as [Heq|Hne].
  - intros [= <-]. exists e. split; [by left|done].
  - intros H. destruct (IH H) as (e' & ? & ? & ?). exists e'. split; [by right|done].
Qed.

Section AppFacts.
Variable cat : list entry.
Variable fits : string → bool.

(** What a run that composes went through. *)
Lemma generate_qr_composed st c p st' log :
  generate_qr cat fits st = (Composed c p, st', log) →
  get_kdl_code cat (PyStr.strip (kdl_var st)) = Some c
  ∧ PyStr.strip (kdl_var st) ≠ SEPARATOR
  ∧ PyStr.strip (fallnummer_entry st) ≠ ""
  ∧ p = qr_data (PyStr.strip (fallnummer_entry st)) c
  ∧ fits p = true
  ∧ st' = State (<[c := usage_get (usage_data st) c + 1]> (usage_data st))
            (fallnummer_entry st) (kdl_var st) (Some p)
            (update_dropdown cat
               (<[c := usage_get (usage_data st) c + 1]> (usage_data st)))
  ∧ log = [SaveUsage (usage_data st')].
Proof.
  unfold generate_qr.
  destruct (String.eqb_spec (PyStr.strip (kdl_var st)) "") as [|Hd]; simpl; [done|].
  destruct (String.eqb_spec (PyStr.strip (kdl_var st)) "---") as [|Hs]; simpl; [done|].
  destruct (get_kdl_code cat (PyStr.strip (kdl_var st))) as [c0|]; [|done].
  destruct (String.eqb_spec (PyStr.strip (fallnummer_entry st)) "") as [|Hf]; simpl; [done|].
  destruct (String.eqb_spec c0 "") as [|Hc]; simpl; [done|].
  destruct (fits _) eqn:Hfit; [|done].
  intros [= <- <- <- <-]. done.
Qed.

Lemma usage_get_insert (u : gmap string Z) c v : usage_get (<[c := v]> u) c = v.
Proof. unfold usage_get. by rewrite lookup_insert_eq. Qed.

Lemma usage_get_insert_ne (u : gmap string Z) c c' v :
  c' ≠ c → usage_get (<[c := v]> u) c' = usage_get u c'.
Proof. intros H. unfold usage_get. by rewrite lookup_insert_ne. Qed.

(** A used code whose count exceeds that of every other catalog code
    is the first favourite code. *)
Lemma unique_max_first (u : gmap string Z) c :
  c ∈ code <$> cat → 0 < usage_get u c →
  (∀ c', c' ∈ code <$> cat → c' ≠ c → usage_get u c' < usage_get u c) →
  head (favorite_codes cat u) = Some c.
Proof.
  intros Hc Hpos Hmax.
  assert (∀ f, f ∈ favorite_codes cat u → ranked_before u f c → f = c) as Hrb.
  { intros f Hf Hr. destruct (decide (f = c)) as [|Hne]; [done|]. exfalso.
    pose proof (Hmax f (favorite_codes_catalog _ _ _ Hf) Hne).
    destruct Hr as [?|[? _]]; lia. }
  assert (c ∈ favorite_codes cat u) as Hin.
  { destruct (decide (c ∈ favorite_codes cat u)) as [|Hn]; [done|]. exfalso.
    destruct (favorite_codes_top cat u c Hc Hpos Hn) as [Hlen Hall].
    destruct (favorite_codes cat u) as [|f fs] eqn:E; [done|].
    apply Hn. rewrite <- (Hrb f); [by left|by left|]. apply Hall. by left. }
  pose proof (favorite_codes_ranked cat u) as Hs.
  destruct (favorite_codes cat u) as [|f fs] eqn:E; [by apply elem_of_nil in Hin|].
  simpl. f_equal. apply elem_of_cons in Hin as [->|Hin]; [done|].
  apply Hrb; [by left|]. apply StronglySorted_cons in Hs as [Hf _].
  rewrite Forall_forall in Hf. by apply Hf.
Qed.

End AppFacts.

(** C3.  The payload is the f-string of the source, and that is the
    template [{sys:GUN_CID,cid:<caseNumber>,formid:<code>}] with the
    two values put in as they are.  A run of [generate_qr] that
    composes makes the QR image from that payload, for the stripped
    case number and the code of the selected display.  The payload
    depends on nothing else: two runs, from whatever states, that
    compose for the same case number and code give the same payload. *)
Theorem payload_is_template :
  (∀ caseNumber code : string, qr_data caseNumber code = payload_template caseNumber code)
  ∧ (∀ cat fits st c p st' log,
       generate_qr cat fits st = (Composed c p, st', log) →
       get_kdl_code cat (PyStr.strip (kdl_var st)) = Some c
       ∧ p = payload_template (PyStr.strip (fallnummer_entry st)) c
       ∧ qr_pil st' = Some p)
  ∧ (∀ cat1 fits1 st1 cat2 fits2 st2 c p1 p2 st1' st2' log1 log2,
       generate_qr cat1 fits1 st1 = (Composed c p1, st1', log1) →
       generate_qr cat2 fits2 st2 = (Composed c p2, st2', log2) →
       PyStr.strip (fallnummer_entry st1) = PyStr.strip (fallnummer_entry st2) →
       p1 = p2).
Proof.
  split_and!.
  - apply qr_data_template.
  - intros cat fits st c p st' log H.
    apply generate_qr_composed in H as (Hc & _ & _ & -> & _ & -> & _).
    split_and!; [done|apply qr_data_template|done].
  - intros cat1 fits1 st1 cat2 fits2 st2 c p1 p2 st1' st2' log1 log2 H1 H2 Hf.
    apply generate_qr_composed in H1 as (_ & _ & _ & -> & _).
    apply generate_qr_composed in H2 as (_ & _ & _ & -> & _).
    by rewrite Hf.
Qed.

Lemma payload_is_template_witness :
  generate_qr FALLBACK_KDL_DATA (λ _, true) st_C34_selected
    = (Composed "C34" "{sys:GUN_CID,cid:4711,formid:C34}",
       (generate_qr FALLBACK_KDL_DATA (λ _, true) st_C34_selected).1.2,
       (generate_qr FALLBACK_KDL_DATA (λ _, true) st_C34_selected).2)
  ∧ "{sys:GUN_CID,cid:4711,formid:C34}" = payload_template "4711" "C34".
Proof.
  assert (generate_qr FALLBACK_KDL_DATA (λ _, true) st_C34_selected
          = (Composed "C34" "{sys:GUN_CID,cid:4711,formid:C34}",
             (generate_qr FALLBACK_KDL_DATA (λ _, true) st_C34_selected).1.2,
             (generate_qr FALLBACK_KDL_DATA (λ _, true) st_C34_selected).2)) as H
    by (vm_compute; reflexivity).
  split; [exact H|].
  exact (proj1 (proj2 (proj1 (proj2 payload_is_template) _ _ _ _ _ _ _ H))).
Defined.

(** C4, counterexample.  With the fallback catalog and A01 used once,
    C34 is composed twice.  Its count is then 2, above the count of
    every other catalog code, and it is the first favourite code; yet
    the dropdown list starts with the display of A01, not with the
    display of C34. *)
Lemma twice_composed_not_first :
  let run := generate_qr FALLBACK_KDL_DATA (λ _, true) in
  let st2 := (run (run st_C34_selected).1.2).1.2 in
  (run st_C34_selected).1.1 = Composed "C34" "{sys:GUN_CID,cid:4711,formid:C34}"
  ∧ (run (run st_C34_selected).1.2).1.1 = Composed "C34" "{sys:GUN_CID,cid:4711,formid:C34}"
  ∧ usage_get (usage_data st2) "C34" = 2
  ∧ Forall (λ e, code e ≠ "C34" → usage_get (usage_data st2) (code e) < 2) FALLBACK_KDL_DATA
  ∧ head (kdl_dropdown st2) = Some "Cholera durch Vibrio cholerae 01, Biovar cholerae"
  ∧ head (kdl_dropdown st2) ≠ Some "Bösartige Neubildung: Bronchien und Lunge".
Proof.
  cbv zeta. split_and!.
  - by vm_compute.
  - by vm_compute.
  - by vm_compute.
  - apply (bool_decide_unpack _). by vm_compute.
  - by vm_compute.
  - vm_compute. intros H. discriminate H.
Qed.

(** C4, as amended.  A run of [generate_qr] that composes for a code
    raises the count of that code by exactly 1, leaves the count of
    every other code as it was, and saves the updated mapping at once:
    the save of the new mapping is the one effect of the run.  After
    two such runs for the same code its count is up by exactly 2; if
    the counts were not negative and the code then has the largest
    count of all catalog codes, the code is the first of the ranked
    favourite codes and the displays of its catalog entries are in
    the favourites portion of the dropdown list (which is in catalog
    order, so they need not come first). *)
Theorem compose_counts_usage (cat : list entry) (fits : string → bool)
    (st st1 : state) (c p : string) (log1 : list effect) :
  generate_qr cat fits st = (Composed c p, st1, log1) →
  usage_get (usage_data st1) c = usage_get (usage_data st) c + 1
  ∧ (∀ c', c' ≠ c → usage_data st1 !! c' = usage_data st !! c')
  ∧ log1 = [SaveUsage (usage_data st1)]
  ∧ kdl_dropdown st1 = update_dropdown cat (usage_data st1)
  ∧ ∀ st1' p2 st2 log2,
      usage_data st1' = usage_data st1 →
      generate_qr cat fits st1' = (Composed c p2, st2, log2) →
      usage_get (usage_data st2) c = usage_get (usage_data st) c + 2
      ∧ log2 = [SaveUsage (usage_data st2)]
      ∧ kdl_dropdown st2 = update_dropdown cat (usage_data st2)
      ∧ (0 ≤ usage_get (usage_data st) c →
         (∀ c', c' ∈ code <$> cat → c' ≠ c →
                usage_get (usage_data st2) c' < usage_get (usage_data st2) c) →
         head (favorite_codes cat (usage_data st2)) = Some c
         ∧ ∀ e, e ∈ cat → code e = c →
                display e ∈ favorites_portion cat (usage_data st2)).
Proof.
  intros H. apply generate_qr_composed in H as (Hc & _ & _ & _ & _ & -> & ->). simpl.
  split_and!; [apply usage_get_insert|intros c' Hne; by apply lookup_insert_ne|done..|].
  intros st1' p2 st2 log2 Hu H2.
  apply generate_qr_composed in H2 as (Hc2 & _ & _ & _ & _ & -> & ->). simpl.
  rewrite Hu. rewrite !usage_get_insert.
  split_and!; [lia|done..|]. intros Hnn Hmax.
  assert (c ∈ code <$> cat) as Hcat.
  { apply lookup_display_Some in Hc as (e & He & _ & <-).
    apply list_elem_of_fmap. by exists e. }
  assert (head (favorite_codes cat
            (<[c:=usage_get (usage_data st) c + 1 + 1]>
               (<[c:=usage_get (usage_data st) c + 1]> (usage_data st)))) = Some c) as Hhead.
  { apply unique_max_first; [done|rewrite usage_get_insert; lia|].
    intros c' Hc' Hne. rewrite (usage_get_insert _ c). by apply Hmax. }
  split; [done|]. intros e He Hec.
  rewrite favorites_portion_eq. apply favorite_displays_elem. exists e.
  split_and!; [done..|]. rewrite Hec. by apply head_Some_elem_of.
Qed.

Lemma compose_counts_usage_witness :
  generate_qr FALLBACK_KDL_DATA (λ _, true) st_C34_selected
    = (Composed "C34" "{sys:GUN_CID,cid:4711,formid:C34}",
       (generate_qr FALLBACK_KDL_DATA (λ _, true) st_C34_selected).1.2,
       (generate_qr FALLBACK_KDL_DATA (λ _, true) st_C34_selected).2)
  ∧ usage_get
      (usage_data (generate_qr FALLBACK_KDL_DATA (λ _, true) st_C34_selected).1.2) "C34"
    = usage_get (usage_data st_C34_selected) "C34" + 1.
Proof.
  assert (generate_qr FALLBACK_KDL_DATA (λ _, true) st_C34_selected
          = (Composed "C34" "{sys:GUN_CID,cid:4711,formid:C34}",
             (generate_qr FALLBACK_KDL_DATA (λ _, true) st_C34_selected).1.2,
             (generate_qr FALLBACK_KDL_DATA (λ _, true) st_C34_selected).2)) as H
    by (vm_compute; reflexivity).
  split; [exact H|].
  exact (proj1 (compose_counts_usage _ _ _ _ _ _ _ H)).
Defined.

(** The selection ["---"] is read as it is. *)
Lemma strip_separator : PyStr.strip SEPARATOR = SEPARATOR.
Proof. reflexivity. Qed.

(** C5.  If the stripped case number is empty, or the selected display
    (as [generate_qr] reads it, stripped) is the display of no catalog
    entry, or it is the separator ["---"], the run reports an input
    error and nothing else happens: the state is the state before (no
    payload, the same usage counts, the same dropdown list) and the
    one effect is the error box, so nothing is saved. *)
Theorem invalid_input_rejected (cat : list entry) (fits : string → bool) (st : state) :
  PyStr.strip (fallnummer_entry st) = ""
  ∨ get_kdl_code cat (PyStr.strip (kdl_var st)) = None
  ∨ PyStr.strip (kdl_var st) = SEPARATOR →
  ∃ message,
    generate_qr cat fits st = (Rejected, st, [ShowError "Fehler" message])
    ∧ qr_pil (generate_qr cat fits st).1.2 = qr_pil st
    ∧ usage_data (generate_qr cat fits st).1.2 = usage_data st
    ∧ ∀ data, SaveUsage data ∉ (generate_qr cat fits st).2.
Proof.
  intros H.
  assert (∃ message, generate_qr cat fits st = (Rejected, st, [ShowError "Fehler" message]))
    as [message Heq].
  { unfold generate_qr.
    destruct (String.eqb_spec (PyStr.strip (kdl_var st)) "") as [|Hd]; simpl; [by eexists|].
    destruct (String.eqb_spec (PyStr.strip (kdl_var st)) "---") as [|Hs]; simpl;
      [by eexists|].
    destruct (get_kdl_code cat (PyStr.strip (kdl_var st))) as [c0|] eqn:Hc; [|by eexists].
    destruct H as [Hf|[?|?]]; [|done..]. rewrite Hf. simpl. by eexists. }
  exists message. rewrite Heq. simpl. split_and!; [done..|].
  intros data Hin. apply list_elem_of_singleton in Hin. discriminate Hin.
Qed.

Lemma invalid_input_rejected_witness :
  ∃ message,
    generate_qr FALLBACK_KDL_DATA (λ _, true)
      (State usage_C34_A01 "   " "Asthma bronchiale" None [])
    = (Rejected, State usage_C34_A01 "   " "Asthma bronchiale" None [],
       [ShowError "Fehler" message]).
Proof.
  destruct (invalid_input_rejected FALLBACK_KDL_DATA (λ _, true)
              (State usage_C34_A01 "   " "Asthma bronchiale" None []))
    as [message [H _]]; [left; reflexivity|].
  exists message. exact H.
Defined.

(** ** Reset: [reset_favorites] *)

Lemma no_positive_no_favorites (cat : list entry) (u : gmap string Z) :
  (∀ e, e ∈ cat → usage_get u (code e) ≤ 0) → favorite_codes cat u = [].
Proof.
  intros H. destruct (favorite_codes cat u) as [|c l] eqn:E; [done|]. exfalso.
  assert (c ∈ favorite_codes cat u) as Hc by (rewrite E; by left).
  pose proof (favorite_codes_positive _ _ _ Hc) as Hpos.
  apply favorite_codes_catalog, list_elem_of_fmap in Hc as [e [-> He]].
  specialize (H e He). lia.
Qed.

(** C9, counterexample.  For the catalog whose only display is ["---"],
    the dropdown list after a reset contains the separator string. *)
Lemma reset_separator_display :
  SEPARATOR ∈ kdl_dropdown
    (reset_favorites separator_catalog (State usage_C34_A01 "" "" None [])).1.
Proof. vm_compute. by left. Qed.

(** C9, as amended.  After a reset the usage mapping is empty and the
    empty mapping is saved.  For a usage mapping in which no catalog
    code has a positive count (an empty or all-zero mapping, so the one
    after a reset) the dropdown list is exactly the list of the catalog
    displays sorted by display string; no separator entry is added, so
    the list contains ["---"] only if that is a display of the
    catalog. *)
Theorem reset_then_alphabetical (cat : list entry) :
  (∀ st,
     usage_data (reset_favorites cat st).1 = ∅
     ∧ (reset_favorites cat st).2
       = [SaveUsage ∅; ShowInfo "Info" "Favoriten wurden zurückgesetzt."]
     ∧ kdl_dropdown (reset_favorites cat st).1
       = update_dropdown cat (usage_data (reset_favorites cat st).1))
  ∧ (∀ u : gmap string Z,
       (∀ e, e ∈ cat → usage_get u (code e) ≤ 0) →
       update_dropdown cat u = display <$> sorted display_lt cat
       ∧ update_dropdown cat u ≡ₚ display <$> cat
       ∧ StronglySorted str_le (update_dropdown cat u)
       ∧ (SEPARATOR ∈ update_dropdown cat u ↔ SEPARATOR ∈ display <$> cat)).
Proof.
  split; [done|]. intros u Hu.
  rewrite (update_dropdown_no_favorites cat u (no_positive_no_favorites cat u Hu)).
  split_and!; [done| |apply sorted_displays_sorted|].
  - by rewrite sorted_perm.
  - by rewrite sorted_perm.
Qed.

Lemma reset_then_alphabetical_witness :
  update_dropdown FALLBACK_KDL_DATA
    (usage_data (reset_favorites FALLBACK_KDL_DATA st_C34_selected).1)
  = [ "Akute Appendizitis"; "Asthma bronchiale";
      "Bösartige Neubildung: Bronchien und Lunge";
      "Cholera durch Vibrio cholerae 01, Biovar cholerae";
      "Essentielle (primäre) Hypertonie"; "HIV-Krankheit, durch HIV-1-Virus";
      "Nicht insulinabhängiger Diabetes mellitus"; "Rückenschmerzen";
      "Salmonellenenteritis"; "Sonstige Krankheiten der Harnorgane" ].
Proof.
  refine (eq_trans (proj1 (proj2 (reset_then_alphabetical FALLBACK_KDL_DATA) ∅ _)) _).
  - intros e _. vm_compute. discriminate.
  - vm_compute. reflexivity.
Defined.

(** ** The label geometry *)

Lemma all_from_spec (d0 : Z) (n : nat) (p : Z → bool) :
  all_from d0 n p = true → ∀ d, d0 ≤ d < d0 + Z.of_nat n → p d = true.
Proof.
  revert d0. induction n as [|n IH]; intros d0 H d Hd; [lia|].
  simpl in H. apply andb_true_iff in H as [Hn H].
  destruct (decide (d = d0)) as [->|Hne]; [done|].
  apply (IH (d0 + 1)); [done|lia].
Qed.

Lemma all_upto_spec (n : nat) (p : Z → bool) :
  all_upto n p = true → ∀ d, 1 ≤ d ≤ Z.of_nat n → p d = true.
Proof. intros H d Hd. apply (all_from_spec 1 n p H). lia. Qed.

Lemma px_25_check : all_upto (Z.to_nat MAX_DPI) (px_exact 25 KC_25) = true.
Proof. vm_compute. reflexivity. Qed.

Lemma px_4_check : all_upto (Z.to_nat MAX_DPI) (px_exact 40 KC_4) = true.
Proof. vm_compute. reflexivity. Qed.

Lemma px_04_check : all_upto (Z.to_nat MAX_DPI) (px_exact 4 KC_04) = true.
Proof. vm_compute. reflexivity. Qed.

Lemma px_02_check : all_upto (Z.to_nat MAX_DPI) (px_exact 2 KC_02) = true.
Proof. vm_compute. reflexivity. Qed.

Lemma px_07_check : all_upto (Z.to_nat MAX_DPI) (px_exact 7 KC_07) = true.
Proof. vm_compute. reflexivity. Qed.

Lemma cm_px_of_check (k10 : Z) (k kc : spec_float) :
  PyFloat.mul k CM_TO_IN = kc →
  all_upto (Z.to_nat MAX_DPI) (px_exact k10 kc) = true →
  ∀ dpi, 1 ≤ dpi ≤ MAX_DPI → cm_px k dpi = Some (LabelSpec.trunc_cm k10 dpi).
Proof.
  intros Hk H dpi Hd. pose proof (all_upto_spec _ _ H dpi) as Hp.
  rewrite Z2Nat.id in Hp by (unfold MAX_DPI; lia). specialize (Hp Hd).
  unfold px_exact in Hp. unfold cm_px. rewrite Hk.
  destruct (PyFloat.mul_int kc dpi ≫= PyFloat.to_int) as [px|]; [|done].
  apply Z.eqb_eq in Hp. by rewrite Hp.
Qed.

Lemma cm_px_25 dpi :
  1 ≤ dpi ≤ MAX_DPI → cm_px (PyFloat.literal 25 10) dpi = Some (LabelSpec.trunc_cm 25 dpi).
Proof. by apply (cm_px_of_check 25 _ KC_25); [vm_compute|apply px_25_check]. Qed.

Lemma cm_px_4 dpi :
  1 ≤ dpi ≤ MAX_DPI → cm_px (PyFloat.literal 4 1) dpi = Some (LabelSpec.trunc_cm 40 dpi).
Proof. by apply (cm_px_of_check 40 _ KC_4); [vm_compute|apply px_4_check]. Qed.

Lemma cm_px_04 dpi :
  1 ≤ dpi ≤ MAX_DPI → cm_px (PyFloat.literal 4 10) dpi = Some (LabelSpec.trunc_cm 4 dpi).
Proof. by apply (cm_px_of_check 4 _ KC_04); [vm_compute|apply px_04_check]. Qed.

Lemma cm_px_02 dpi :
  1 ≤ dpi ≤ MAX_DPI → cm_px (PyFloat.literal 2 10) dpi = Some (LabelSpec.trunc_cm 2 dpi).
Proof. by apply (cm_px_of_check 2 _ KC_02); [vm_compute|apply px_02_check]. Qed.

Lemma cm_px_07 dpi :
  1 ≤ dpi ≤ MAX_DPI → cm_px (PyFloat.literal 7 10) dpi = Some (LabelSpec.trunc_cm 7 dpi).
Proof. by apply (cm_px_of_check 7 _ KC_07); [vm_compute|apply px_07_check]. Qed.

(** Both versions of [print_qr], on the resolutions covered. *)
Lemma print_layout_V110 (dpi_x dpi_y : Z) :
  1 ≤ dpi_x ≤ MAX_DPI → 1 ≤ dpi_y ≤ MAX_DPI →
  V110.print_layout dpi_x dpi_y =
    let qr := LabelSpec.trunc_cm 25 (Z.min dpi_x dpi_y) in
    let text_x := qr + LabelSpec.trunc_cm 2 dpi_x in
    Some (Layout (LabelSpec.trunc_cm 40 dpi_x, qr + LabelSpec.trunc_cm 4 dpi_y)
            (qr, qr) (0, 0) (text_x, 0) (text_x, LabelSpec.trunc_cm 7 dpi_y) (0, qr)).
Proof.
  intros Hx Hy. unfold V110.print_layout.
  rewrite cm_px_25, cm_px_4, cm_px_04, cm_px_02, cm_px_07 by lia.
  reflexivity.
Qed.

Lemma print_layout_V200 (dpi_x dpi_y : Z) :
  1 ≤ dpi_x ≤ MAX_DPI → 1 ≤ dpi_y ≤ MAX_DPI →
  V200.print_layout dpi_x dpi_y =
    let qr := LabelSpec.trunc_cm 25 (Z.min dpi_x dpi_y) in
    Some (Layout (LabelSpec.trunc_cm 40 dpi_x, qr + 20)
            (qr, qr) (0, 0) (qr + 10, 0) (qr + 10, 20) (0, qr)).
Proof.
  intros Hx Hy. unfold V200.print_layout.
  rewrite cm_px_25, cm_px_4 by lia.
  reflexivity.
Qed.

(** Python's [round] gives the integer part or the next integer. *)
Lemma round_trunc (num den : Z) :
  0 < den → num / den ≤ LabelSpec.round num den ≤ num / den + 1.
Proof.
  intros Hden. unfold LabelSpec.round.
  destruct (2 * (num mod den) <? den)%Z; [lia|].
  destruct (den <? 2 * (num mod den))%Z; [lia|].
  destruct (Z.even (num / den)); lia.
Qed.

(** C2, counterexample.  At 72 dpi both versions give a QR side of 70
    pixels: [2.5 × 0.3937007874 × 72] is 70.866..., which [int] cuts to
    70 and [round] takes to 71. *)
Lemma qr_side_truncated_at_72 :
  qr_size <$> V200.print_layout 72 72 = Some (70, 70)
  ∧ qr_size <$> V110.print_layout 72 72 = Some (70, 70)
  ∧ LabelSpec.qrSidePixels 72 72 = 71.
Proof. by vm_compute. Qed.

(** C2, as amended.  For all resolutions from 1 to 9600 dpi both
    versions compute the QR side as the integer part (not the rounding)
    of [2.5 × 0.3937007874 × min(dpiX, dpiY)] and the label width as
    the integer part of [4 × 0.3937007874 × dpiX]; each is the rounded
    value of the specification or one below it.  The label height is
    the QR side plus the integer part of [0.4 × 0.3937007874 × dpiY] in
    V110, and the QR side plus 20 pixels in V200.  At 300 dpi the QR
    side is 295 and the label width 472. *)
Theorem label_geometry_truncates (dpi_x dpi_y : Z) :
  1 ≤ dpi_x ≤ MAX_DPI → 1 ≤ dpi_y ≤ MAX_DPI →
  let qr := LabelSpec.trunc_cm 25 (Z.min dpi_x dpi_y) in
  let width := LabelSpec.trunc_cm 40 dpi_x in
  (∃ l110 l200,
     V110.print_layout dpi_x dpi_y = Some l110
     ∧ V200.print_layout dpi_x dpi_y = Some l200
     ∧ qr_size l110 = (qr, qr) ∧ qr_size l200 = (qr, qr)
     ∧ image_size l110 = (width, qr + LabelSpec.trunc_cm 4 dpi_y)
     ∧ image_size l200 = (width, qr + 20))
  ∧ qr ≤ LabelSpec.qrSidePixels dpi_x dpi_y ≤ qr + 1
  ∧ width ≤ LabelSpec.labelWidthPixels dpi_x ≤ width + 1
  ∧ LabelSpec.trunc_cm 25 (Z.min 300 300) = 295
  ∧ LabelSpec.trunc_cm 40 300 = 472.
Proof.
  intros Hx Hy qr width.
  split; [|split; [|split; [|split]]].
  - eexists _, _. rewrite print_layout_V110, print_layout_V200 by done.
    cbv zeta. split_and!; reflexivity.
  - apply round_trunc. lia.
  - unfold width, LabelSpec.trunc_cm, LabelSpec.labelWidthPixels.
    replace (40 * 3937007874 * dpi_x / (10 * 10000000000))
      with (4 * 3937007874 * dpi_x / 10000000000).
    + apply round_trunc. lia.
    + rewrite <- (Z.div_mul_cancel_l (4 * 3937007874 * dpi_x) 10000000000 10) by lia.
      f_equal. lia.
  - reflexivity.
  - reflexivity.
Qed.

Lemma label_geometry_truncates_witness :
  ∃ l110 l200,
    V110.print_layout 300 300 = Some l110
    ∧ V200.print_layout 300 300 = Some l200
    ∧ qr_size l110 = (295, 295) ∧ qr_size l200 = (295, 295)
    ∧ image_size l110 = (472, 295 + 47)
    ∧ image_size l200 = (472, 295 + 20).
Proof.
  refine (proj1 (label_geometry_truncates 300 300 _ _)); unfold MAX_DPI; lia.
Defined.

(** C10, counterexample.  At 300 dpi the two versions differ: V110
    leaves 47 pixels under the QR block, starts the text 23 pixels to
    its right and puts the second line at 82; V200 has 20, 10 and 20. *)
Lemma layouts_differ_at_300 :
  V110.print_layout 300 300
    = Some (Layout (472, 342) (295, 295) (0, 0) (318, 0) (318, 82) (0, 295))
  ∧ V200.print_layout 300 300
    = Some (Layout (472, 315) (295, 295) (0, 0) (305, 0) (305, 20) (0, 295))
  ∧ V110.print_layout 300 300 ≠ V200.print_layout 300 300.
Proof. split_and!; [by vm_compute..|]. vm_compute. intros H. discriminate H. Qed.

(** C10, as amended.  For all resolutions from 1 to 9600 dpi the
    layouts of V110 and V200 agree in the QR block (size and position),
    the label width, the height of the first text line and the anchor
    of the date.  They agree in the rest exactly when V110's scaled
    offsets come out as V200's fixed ones: 0.4 cm at dpiY as 20 pixels,
    0.2 cm at dpiX as 10 pixels and 0.7 cm at dpiY as 20 pixels.  No
    dpiY gives the first and the third together, so the two layouts
    are never equal. *)
Theorem layouts_agree_on_qr_block (dpi_x dpi_y : Z) :
  1 ≤ dpi_x ≤ MAX_DPI → 1 ≤ dpi_y ≤ MAX_DPI →
  ∃ l110 l200,
    V110.print_layout dpi_x dpi_y = Some l110
    ∧ V200.print_layout dpi_x dpi_y = Some l200
    ∧ qr_size l110 = qr_size l200
    ∧ qr_pos l110 = qr_pos l200
    ∧ (image_size l110).1 = (image_size l200).1
    ∧ (fallnummer_pos l110).2 = (fallnummer_pos l200).2
    ∧ date_pos l110 = date_pos l200
    ∧ (l110 = l200 ↔
         LabelSpec.trunc_cm 4 dpi_y = 20
         ∧ LabelSpec.trunc_cm 2 dpi_x = 10
         ∧ LabelSpec.trunc_cm 7 dpi_y = 20)
    ∧ l110 ≠ l200.
Proof.
  intros Hx Hy. eexists _, _.
  rewrite print_layout_V110, print_layout_V200 by done. cbv zeta.
  split_and!; try reflexivity.
  - split.
    + intros [= H1 H2 H3 H4].
      apply Z.add_reg_l in H1, H2. done.
    + intros (-> & -> & ->). reflexivity.
  - intros [= H1 H2 H3 H4]. apply Z.add_reg_l in H1.
    unfold LabelSpec.trunc_cm in H1, H4.
    change (10 * 10000000000) with 100000000000 in H1, H4.
    clear - H1 H4. Z.div_mod_to_equations. lia.
Qed.

Lemma layouts_agree_on_qr_block_witness :
  ∃ l110 l200,
    V110.print_layout 300 300 = Some l110
    ∧ V200.print_layout 300 300 = Some l200
    ∧ qr_size l110 = qr_size l200
    ∧ l110 ≠ l200.
Proof.
  destruct (layouts_agree_on_qr_block 300 300) as (l110 & l200 & H1 & H2 & H3 & H);
    [unfold MAX_DPI; lia..|].
  exists l110, l200. split_and!; [done..|]. apply H.
Defined.

(** ** The catalog loader *)

Lemma py_all_true {A} (p : A → option bool) (xs : list A) :
  py_all p xs = Some true ↔ Forall (λ x, p x = Some true) xs.
Proof.
  induction xs as [|x xs IH]; simpl.
  - split; [constructor|done].
  - rewrite Forall_cons, <- IH. destruct (p x) as [[|]|]; intuition congruence.
Qed.

(** The loop returns the data of the first candidate that is accepted,
    and the fallback list when none is. *)
Lemma probe_first (accept : file → option (list json)) (kdl_file : string → file)
    (paths : list string) (i : nat) (path : string) (data : list json) :
  paths !! i = Some path →
  accept (kdl_file path) = Some data →
  (∀ j path', (j < i)%nat → paths !! j = Some path' → accept (kdl_file path') = None) →
  probe accept kdl_file paths = data.
Proof.
  revert i. induction paths as [|p0 paths IH]; intros i Hi Ha Hbefore; [done|].
  destruct i as [|i]; simpl in *.
  - injection Hi as ->. by rewrite Ha.
  - rewrite (Hbefore 0%nat p0) by (lia || done).
    apply (IH i); [done..|]. intros j path' Hj Hp. apply (Hbefore (S j)); [lia|done].
Qed.

Lemma probe_none (accept : file → option (list json)) (kdl_file : string → file)
    (paths : list string) :
  (∀ path, path ∈ paths → accept (kdl_file path) = None) →
  probe accept kdl_file paths = FALLBACK_KDL_JSON.
Proof.
  induction paths as [|p0 paths IH]; intros H; [done|]. simpl.
  rewrite (H p0) by left. apply IH. intros path Hp. apply H. by right.
Qed.

Lemma accept_V200 (f : file) (data : list json) :
  V200Loader.accept f = Some data ↔
  f = JsonFile (JList data) ∧ Forall has_keys_V200 data.
Proof.
  unfold V200Loader.accept. destruct f as [| |[]]; try (split; [done|by intros [? _]]).
  destruct (py_all _ items) as [[|]|] eqn:E.
  - apply py_all_true in E. split.
    + intros [= <-]. split; [done|]. eapply Forall_impl; [exact E|].
      intros e He. unfold has_keys_V200. cbv beta in He.
      destruct (py_in "code" e) as [[|]|]; simpl in He; done.
    + by intros [[= <-] _].
  - split; [done|]. intros [[= <-] H].
    assert (py_all (λ e, py_and (py_in "code" e) (py_in "display" e)) items = Some true)
      as E'; [|congruence].
    apply py_all_true. eapply Forall_impl; [exact H|].
    intros e [-> ->]. done.
  - split; [done|]. intros [[= <-] H].
    assert (py_all (λ e, py_and (py_in "code" e) (py_in "display" e)) items = Some true)
      as E'; [|congruence].
    apply py_all_true. eapply Forall_impl; [exact H|].
    intros e [-> ->]. done.
Qed.

Lemma has_keys_V110_test (x : json) :
  py_and (Some (match x with JDict _ => true | _ => false end))
    (py_and (py_in "code" x) (py_in "display" x)) = Some true ↔ has_keys_V110 x.
Proof.
  unfold has_keys_V110. destruct x; simpl;
    try (split; [done|by intros (? & ? & _)]).
  destruct (bool_decide_reflect ("code" ∈ fields.*1)) as [Hc|Hc]; simpl.
  - destruct (bool_decide_reflect ("display" ∈ fields.*1)) as [Hd|Hd].
    + split; [by exists fields|done].
    + split; [done|]. by intros (? & [= <-] & _ & ?).
  - split; [done|]. by intros (? & [= <-] & ? & _).
Qed.

Lemma accept_V110 (f : file) (data : list json) :
  V110Loader.accept f = Some data ↔
  f = JsonFile (JList data) ∧ Forall has_keys_V110 data.
Proof.
  unfold V110Loader.accept. destruct f as [| |[]]; try (split; [done|by intros [? _]]).
  destruct (py_all _ items) as [[|]|] eqn:E.
  - apply py_all_true in E. split.
    + intros [= <-]. split; [done|]. eapply Forall_impl; [exact E|].
      intros x. apply has_keys_V110_test.
    + by intros [[= <-] _].
  - split; [done|]. intros [[= <-] H]. exfalso.
    assert (Some false = Some true); [|done]. rewrite <- E.
    apply py_all_true. eapply Forall_impl; [exact H|].
    intros x. apply has_keys_V110_test.
  - split; [done|]. intros [[= <-] H]. exfalso.
    assert (None = Some true); [|done]. rewrite <- E.
    apply py_all_true. eapply Forall_impl; [exact H|].
    intros x. apply has_keys_V110_test.
Qed.

Lemma entries_have_keys (cat : list entry) :
  Forall has_keys_V110 (entry_json <$> cat) ∧ Forall has_keys_V200 (entry_json <$> cat).
Proof.
  split; apply Forall_fmap, Forall_forall; intros e _.
  - exists [("code", JStr (code e)); ("display", JStr (display e))].
    split_and!; [done|by left|by right; left].
  - by split.
Qed.

(** C8, counterexample.  The first existing candidate, the file in the
    working directory, is unreadable; the loader does not return the
    fallback list but goes on to the file next to the source and
    returns it, although its fields are not strings. *)
Lemma loader_goes_on_after_unreadable :
  candidates pf_cwd_unreadable = ["cwd"; "src"]
  ∧ kdl_file pf_cwd_unreadable "cwd" = Unreadable
  ∧ V200Loader.load_kdl_data pf_cwd_unreadable
    = [JDict [("code", JInt 1); ("display", JInt 2)]]
  ∧ V110Loader.load_kdl_data pf_cwd_unreadable
    = [JDict [("code", JInt 1); ("display", JInt 2)]]
  ∧ V200Loader.load_kdl_data pf_cwd_unreadable ≠ FALLBACK_KDL_JSON
  ∧ V110Loader.load_kdl_data pf_cwd_unreadable ≠ FALLBACK_KDL_JSON.
Proof.
  split_and!; [by vm_compute..| |]; vm_compute; intros H; discriminate H.
Qed.

(** C8, as amended.  The candidates are the directory of the
    executable (when frozen), the working directory and the directory
    of the source file, in this order.  The loader returns the content
    of the first candidate that is accepted: the file exists, is read
    and parsed, is a list, and each element has the keys [code] and
    [display] (in V110 each element is an object with these keys; in
    V200 [in] is applied to whatever the element is).  The values of
    the keys are not looked at.  A candidate that is not accepted is
    passed over.  When no candidate is accepted the result is the
    built-in fallback list, which has exactly ten entries.  A list of
    objects with string fields [code] and [display] is accepted by both
    versions. *)
Theorem load_kdl_data_first_accepted (pf : platform) :
  candidates pf = (if frozen pf then [exe_dir pf] else []) ++ [cwd pf; here pf]
  ∧ (∀ (i : nat) path data,
       candidates pf !! i = Some path →
       V200Loader.accept (kdl_file pf path) = Some data →
       (∀ (j : nat) path', (j < i)%nat → candidates pf !! j = Some path' →
                           V200Loader.accept (kdl_file pf path') = None) →
       V200Loader.load_kdl_data pf = data)
  ∧ ((∀ path, path ∈ candidates pf → V200Loader.accept (kdl_file pf path) = None) →
     V200Loader.load_kdl_data pf = FALLBACK_KDL_JSON)
  ∧ (∀ (i : nat) path data,
       candidates pf !! i = Some path →
       V110Loader.accept (kdl_file pf path) = Some data →
       (∀ (j : nat) path', (j < i)%nat → candidates pf !! j = Some path' →
                           V110Loader.accept (kdl_file pf path') = None) →
       V110Loader.load_kdl_data pf = data)
  ∧ ((∀ path, path ∈ candidates pf → V110Loader.accept (kdl_file pf path) = None) →
     V110Loader.load_kdl_data pf = FALLBACK_KDL_JSON)
  ∧ (∀ f data, V200Loader.accept f = Some data ↔
               f = JsonFile (JList data) ∧ Forall has_keys_V200 data)
  ∧ (∀ f data, V110Loader.accept f = Some data ↔
               f = JsonFile (JList data) ∧ Forall has_keys_V110 data)
  ∧ (∀ cat : list entry,
       V200Loader.accept (JsonFile (JList (entry_json <$> cat))) = Some (entry_json <$> cat)
       ∧ V110Loader.accept (JsonFile (JList (entry_json <$> cat))) = Some (entry_json <$> cat))
  ∧ FALLBACK_KDL_JSON = entry_json <$> FALLBACK_KDL_DATA
  ∧ length FALLBACK_KDL_JSON = 10%nat.
Proof.
  split_and!.
  - reflexivity.
  - intros i path data. apply probe_first.
  - apply probe_none.
  - intros i path data. apply probe_first.
  - apply probe_none.
  - apply accept_V200.
  - apply accept_V110.
  - intros cat. split.
    + apply accept_V200. split; [done|apply entries_have_keys].
    + apply accept_V110. split; [done|apply entries_have_keys].
  - reflexivity.
  - reflexivity.
Qed.

Lemma load_kdl_data_first_accepted_witness :
  V200Loader.load_kdl_data pf_cwd_unreadable
  = [JDict [("code", JInt 1); ("display", JInt 2)]].
Proof.
  refine (proj1 (proj2 (load_kdl_data_first_accepted pf_cwd_unreadable))
            1%nat "src" _ _ _ _).
  - reflexivity.
  - reflexivity.
  - intros j path' Hj. destruct j as [|j]; [|lia]. intros [= <-]. reflexivity.
Defined.

(** * Further properties *)

(** ** Lists *)

Lemma filter_ext_in {A} (P Q : A → Prop) `{∀ x, Decision (P x)} `{∀ x, Decision (Q x)}
    (l : list A) :
  (∀ x, x ∈ l → P x ↔ Q x) → filter P l = filter Q l.
Proof.
  induction l as [|a l IH]; intros HPQ; [done|].
  rewrite !filter_cons.
  rewrite IH by (intros x Hx; apply HPQ; by right).
  destruct (decide (P a)) as [Ha|Ha], (decide (Q a)) as [Hb|Hb]; try done;
    exfalso; apply (HPQ a) in Ha || apply (HPQ a) in Hb; try done; by left.
Qed.

Lemma fold_left_ext_in {A B} (f g : A → B → A) (l : list B) (a : A) :
  (∀ x b, b ∈ l → f x b = g x b) → fold_left f l a = fold_left g l a.
Proof.
  revert a. induction l as [|b l IH]; intros a H; [done|]. simpl.
  rewrite (H a b) by left. apply IH. intros x b' Hb'. apply H. by right.
Qed.

Lemma NoDup_fmap_inj_on {A B} (f : A → B) (l : list A) (x y : A) :
  NoDup (f <$> l) → x ∈ l → y ∈ l → f x = f y → x = y.
Proof.
  induction l as [|a l IH]; csimpl; intros Hnd Hx Hy Hxy.
  - by apply elem_of_nil in Hx.
  - apply NoDup_cons in Hnd as [Ha Hnd].
    apply elem_of_cons in Hx as [->|Hx], Hy as [->|Hy]; [done| | |by apply IH].
    + exfalso. apply Ha. rewrite Hxy. by apply list_elem_of_fmap_2.
    + exfalso. apply Ha. rewrite <- Hxy. by apply list_elem_of_fmap_2.
Qed.

Lemma length_filter_disjoint {A} (P Q : A → Prop) `{∀ x, Decision (P x)}
    `{∀ x, Decision (Q x)} (l : list A) :
  (∀ x, x ∈ l → P x → Q x → False) →
  (length (filter P l) + length (filter Q l) ≤ length l)%nat.
Proof.
  induction l as [|a l IH]; intros HPQ; [done|].
  assert (length (filter P l) + length (filter Q l) ≤ length l)%nat
    by (apply IH; intros x Hx; apply HPQ; by right).
  rewrite !filter_cons.
  destruct (decide (P a)) as [Ha|Ha], (decide (Q a)) as [Hb|Hb]; simpl; try lia.
  destruct (HPQ a); [by left|done..].
Qed.

Lemma filter_fmap_commute {A B} (f : A → B) (P : B → Prop) `{∀ y, Decision (P y)}
    (l : list A) :
  f <$> filter (λ x, P (f x)) l = filter P (f <$> l).
Proof.
  induction l as [|a l IH]; [done|]. csimpl. rewrite !filter_cons.
  destruct (decide (P (f a))); csimpl; by rewrite IH.
Qed.

(** ** More on the dropdown list *)

Lemma lookup_display_None (l : list entry) (d : string) :
  lookup_display l d = None ↔ d ∉ display <$> l.
Proof.
  induction l as [|e l IH]; csimpl.
  - split; [intros _; apply not_elem_of_nil|done].
  - rewrite not_elem_of_cons, <- IH.
    destruct (String.eqb_spec (display e) d) as [Heq|Hne].
    + split; [done|]. intros [Hne _]. by destruct Hne.
    + split; [intros H; split; [congruence|done]|by intros [_ ?]].
Qed.

Lemma lookup_display_first (l : list entry) (d : string) :
  d ∈ display <$> l →
  ∃ e, e ∈ l ∧ display e = d ∧ lookup_display l d = Some (code e).
Proof.
  intros Hd. destruct (lookup_display l d) as [c|] eqn:E.
  - apply lookup_display_Some in E as (e & He & Hde & <-). by exists e.
  - by apply lookup_display_None in E.
Qed.

Lemma favorite_display_iff_code (cat : list entry) (u : gmap string Z) (e : entry) :
  NoDup (display <$> cat) → e ∈ cat →
  display e ∈ favorite_displays cat u ↔ code e ∈ favorite_codes cat u.
Proof.
  intros Hnd He. rewrite favorite_displays_elem. split.
  - intros (e' & He' & Hd & Hc).
    by rewrite <- (NoDup_fmap_inj_on display cat e' e Hnd He' He Hd).
  - intros Hc. by exists e.
Qed.

Lemma update_dropdown_elem (cat : list entry) (u : gmap string Z) (d : string) :
  d ∈ update_dropdown cat u → d = SEPARATOR ∨ d ∈ display <$> cat.
Proof.
  rewrite update_dropdown_split, !elem_of_app. intros [Hd|[Hd|Hd]].
  - right. by apply (sublist_subseteq _ _ (favorite_displays_sublist cat u)).
  - left. destruct (favorite_displays cat u); [by apply elem_of_nil in Hd|].
    by apply list_elem_of_singleton in Hd.
  - right. by apply remaining_displays_elem in Hd as [? _].
Qed.

(** X1.  Every catalog display is in the dropdown list; every value of
    the list is a catalog display or the separator; and the list has
    at most one value more than the catalog has entries. *)
Theorem dropdown_lists_the_catalog (cat : list entry) (u : gmap string Z) :
  (∀ e, e ∈ cat → display e ∈ update_dropdown cat u)
  ∧ (∀ d, d ∈ update_dropdown cat u → d = SEPARATOR ∨ d ∈ display <$> cat)
  ∧ (length (update_dropdown cat u) ≤ S (length cat))%nat.
Proof.
  split_and!; [|apply update_dropdown_elem|]; rewrite update_dropdown_split.
  - intros e He. rewrite !elem_of_app.
    destruct (decide (display e ∈ favorite_displays cat u)) as [?|Hn]; [by left|].
    right. right. apply remaining_displays_elem. split; [|done].
    by apply list_elem_of_fmap_2.
  - rewrite !length_app.
    assert (length (favorite_displays cat u) + length (remaining_displays cat u)
            ≤ length cat)%nat as Hle.
    { rewrite (remaining_displays_perm cat u).
      rewrite <- (filter_fmap_commute display (λ d, d ∉ favorite_displays cat u)).
      unfold favorite_displays at 1. rewrite !length_fmap.
      apply length_filter_disjoint. intros e He Hc Hd. apply Hd.
      apply favorite_displays_elem. by exists e. }
    destruct (favorite_displays cat u); simpl in *; lia.
Qed.

(** X2.  When no two catalog entries have the same display, the
    dropdown list holds every catalog display exactly once, and the
    separator once more when there is a favourite: nothing is lost and
    nothing is doubled. *)
Theorem dropdown_is_permutation (cat : list entry) (u : gmap string Z) :
  NoDup (display <$> cat) →
  update_dropdown cat u ≡ₚ
    match favorite_codes cat u with
    | [] => display <$> cat
    | _ :: _ => SEPARATOR :: (display <$> cat)
    end.
Proof.
  intros Hnd.
  assert (favorite_displays cat u ++ remaining_displays cat u ≡ₚ display <$> cat) as Hp.
  { rewrite (remaining_displays_perm cat u).
    rewrite <- (filter_fmap_commute display (λ d, d ∉ favorite_displays cat u)).
    unfold favorite_displays at 1. rewrite <- fmap_app. apply fmap_Permutation.
    rewrite (filter_ext_in (λ e, display e ∉ favorite_displays cat u)
               (λ e, ¬ code e ∈ favorite_codes cat u)).
    - apply filter_app_complement.
    - intros e He. by rewrite (favorite_display_iff_code cat u e Hnd He). }
  rewrite update_dropdown_split.
  destruct (favorite_codes cat u) as [|c cs] eqn:Ec.
  - apply favorite_displays_nil in Ec. rewrite Ec in Hp |- *. done.
  - destruct (favorite_displays cat u) as [|d ds] eqn:Ed.
    { apply favorite_displays_nil in Ed. congruence. }
    rewrite <- Hp. symmetry. exact (Permutation_middle (d :: ds) _ SEPARATOR).
Qed.

Lemma dropdown_is_permutation_witness :
  update_dropdown FALLBACK_KDL_DATA usage_C34_A01 ≡ₚ
    SEPARATOR :: (display <$> FALLBACK_KDL_DATA).
Proof.
  refine (dropdown_is_permutation FALLBACK_KDL_DATA usage_C34_A01 _).
  apply (bool_decide_unpack _). vm_compute. exact I.
Defined.

(** X3.  When no two catalog entries have the same code, every
    favourite code brings exactly one display: the favourites portion
    has as many values as there are favourite codes, so at most five,
    and the codes of the entries shown there are the favourite codes. *)
Theorem one_display_per_favorite (cat : list entry) (u : gmap string Z) :
  NoDup (code <$> cat) →
  code <$> filter (λ e, code e ∈ favorite_codes cat u) cat ≡ₚ favorite_codes cat u
  ∧ length (favorites_portion cat u) = length (favorite_codes cat u)
  ∧ (length (favorites_portion cat u) ≤ 5)%nat.
Proof.
  intros Hnd.
  assert (code <$> filter (λ e, code e ∈ favorite_codes cat u) cat
          ≡ₚ favorite_codes cat u) as Hp.
  { apply NoDup_Permutation.
    - apply (sublist_NoDup _ (code <$> cat)); [done|]. apply fmap_sublist, sublist_filter.
    - apply favorite_codes_NoDup.
    - intros c. rewrite list_elem_of_fmap. split.
      + intros [e [-> He]]. by apply list_elem_of_filter in He as [? _].
      + intros Hc. pose proof (favorite_codes_catalog _ _ _ Hc) as Hcat.
        apply list_elem_of_fmap in Hcat as [e [-> He]]. exists e. split; [done|].
        by apply list_elem_of_filter. }
  assert (length (favorites_portion cat u) = length (favorite_codes cat u)) as Hlen.
  { rewrite favorites_portion_eq. unfold favorite_displays.
    rewrite length_fmap, <- (length_fmap code). by rewrite Hp. }
  split_and!; [done..|]. rewrite Hlen. apply favorite_codes_length.
Qed.

Lemma one_display_per_favorite_witness :
  length (favorites_portion FALLBACK_KDL_DATA usage_C34_A01)
  = length (favorite_codes FALLBACK_KDL_DATA usage_C34_A01).
Proof.
  refine (proj1 (proj2 (one_display_per_favorite FALLBACK_KDL_DATA usage_C34_A01 _))).
  apply (bool_decide_unpack _). vm_compute. exact I.
Defined.

Lemma valid_usage_ext (cat : list entry) (u u' : gmap string Z) :
  (∀ e, e ∈ cat → usage_get u (code e) = usage_get u' (code e)) →
  valid_usage cat u = valid_usage cat u'.
Proof.
  intros H. unfold valid_usage. apply fold_left_ext_in.
  intros d e He. by rewrite (H e He).
Qed.

Lemma favorite_codes_ext (cat : list entry) (u u' : gmap string Z) :
  (∀ e, e ∈ cat → usage_get u (code e) = usage_get u' (code e)) →
  favorite_codes cat u = favorite_codes cat u'.
Proof.
  intros H. unfold favorite_codes, favorites_sorted.
  rewrite <- (valid_usage_ext cat u u' H). f_equal.
  apply filter_ext_in. intros [k v] Hk. simpl.
  assert (k ∈ code <$> cat) as Hc.
  { apply (subseteq_take 5) in Hk. by apply (ranking_elem cat u) in Hk as [? _]. }
  apply list_elem_of_fmap in Hc as [e [-> He]]. by rewrite (H e He).
Qed.

(** X4.  Counts kept for codes that are not in the catalog have no
    effect: two usage mappings that give every catalog code the same
    count give the same dropdown list. *)
Theorem only_catalog_counts_matter (cat : list entry) (u u' : gmap string Z) :
  (∀ e, e ∈ cat → usage_get u (code e) = usage_get u' (code e)) →
  update_dropdown cat u = update_dropdown cat u'.
Proof.
  intros H.
  assert (favorite_displays cat u = favorite_displays cat u') as Hf.
  { unfold favorite_displays. by rewrite (favorite_codes_ext cat u u' H). }
  unfold update_dropdown, remaining_displays. by rewrite Hf.
Qed.

Lemma only_catalog_counts_matter_witness :
  update_dropdown FALLBACK_KDL_DATA (<["Z99" := 7]> usage_C34_A01)
  = update_dropdown FALLBACK_KDL_DATA usage_C34_A01.
Proof.
  refine (only_catalog_counts_matter FALLBACK_KDL_DATA _ _ _).
  intros e He. apply usage_get_insert_ne. intros Heq.
  apply (list_elem_of_fmap_2 code) in He. rewrite Heq in He.
  revert He. apply (bool_decide_unpack _). vm_compute. exact I.
Defined.

(** X6.  Every value of the dropdown list other than the separator is
    resolved by [get_kdl_code] to the code of a catalog entry with that
    display; a text that is no catalog display is resolved to nothing. *)
Theorem dropdown_values_resolve (cat : list entry) (u : gmap string Z) :
  (∀ d, d ∈ update_dropdown cat u → d ≠ SEPARATOR →
        ∃ e, e ∈ cat ∧ display e = d ∧ get_kdl_code cat d = Some (code e))
  ∧ (∀ d, get_kdl_code cat d = None ↔ d ∉ display <$> cat).
Proof.
  split.
  - intros d Hd Hsep. apply lookup_display_first.
    destruct (update_dropdown_elem cat u d Hd); done.
  - intros d. apply lookup_display_None.
Qed.

Lemma lookup_display_app (pre post : list entry) (e : entry) :
  display e ∉ display <$> pre →
  lookup_display (pre ++ e :: post) (display e) = Some (code e).
Proof.
  induction pre as [|e0 pre IH]; csimpl; intros Hn.
  - by rewrite String.eqb_refl.
  - apply not_elem_of_cons in Hn as [Hne Hn].
    destruct (String.eqb_spec (display e0) (display e)); [congruence|]. by apply IH.
Qed.

(** X7.  [get_kdl_code] gives the code of the first entry with the
    display asked for: an entry is found by its display when no
    earlier entry has the same display, and an entry behind one with
    the same display is never found.  So when no two entries share a
    display, each entry is found by its own display. *)
Theorem get_kdl_code_first_wins :
  (∀ (pre post : list entry) (e : entry),
     display e ∉ display <$> pre →
     get_kdl_code (pre ++ e :: post) (display e) = Some (code e))
  ∧ (∀ (pre post : list entry) (e e' : entry),
       display e ∉ display <$> pre → display e' = display e →
       get_kdl_code (pre ++ e :: post ++ [e']) (display e') = Some (code e))
  ∧ (∀ (cat : list entry) (e : entry),
       NoDup (display <$> cat) → e ∈ cat →
       get_kdl_code cat (display e) = Some (code e)).
Proof.
  split_and!.
  - intros pre post e. apply lookup_display_app.
  - intros pre post e e' Hn ->. by apply (lookup_display_app pre (post ++ [e'])).
  - intros cat e Hnd He. unfold get_kdl_code.
    destruct (lookup_display_first cat (display e)) as (e' & He' & Hd & ->).
    { by apply list_elem_of_fmap_2. }
    by rewrite (NoDup_fmap_inj_on display cat e' e Hnd He' He Hd).
Qed.

Lemma get_kdl_code_first_wins_witness :
  get_kdl_code FALLBACK_KDL_DATA "Asthma bronchiale" = Some "J45".
Proof.
  refine (proj2 (proj2 get_kdl_code_first_wins) FALLBACK_KDL_DATA
            (Entry "J45" "Asthma bronchiale") _ _).
  - apply (bool_decide_unpack _). vm_compute. exact I.
  - do 6 apply list_elem_of_further. apply list_elem_of_here.
Defined.

(** ** The order of the catalog *)

Lemma valid_usage_NoDup (cat : list entry) (u : gmap string Z) : NoDup (valid_usage cat u).
Proof. apply (NoDup_fmap_1 fst). apply valid_usage_counts. Qed.

Lemma ranking_Permutation (cat cat' : list entry) (u : gmap string Z) :
  cat ≡ₚ cat' → ranking cat u = ranking cat' u.
Proof.
  intros Hp.
  apply (StronglySorted_unique_strong (λ a b, key_lt a b = true)).
  - intros x y _ _ Hxy Hyx. apply key_lt_asym in Hxy. congruence.
  - apply ranking_sorted.
  - apply ranking_sorted.
  - unfold ranking. rewrite !sorted_perm.
    apply NoDup_Permutation; [apply valid_usage_NoDup..|].
    intros [k v]. rewrite !valid_usage_elem. by rewrite Hp.
Qed.

Lemma str_le_antisym (a b : string) : str_le a b → str_le b a → a = b.
Proof.
  unfold str_le. intros Hab Hba.
  destruct (str_lt_total _ _ Hab) as [?|H]; [done|congruence].
Qed.

Lemma sorted_displays_Permutation (cat cat' : list entry) :
  cat ≡ₚ cat' → display <$> sorted display_lt cat = display <$> sorted display_lt cat'.
Proof.
  intros Hp. apply (StronglySorted_unique_strong str_le).
  - intros x y _ _. apply str_le_antisym.
  - apply sorted_displays_sorted.
  - apply sorted_displays_sorted.
  - by rewrite !sorted_perm, Hp.
Qed.

Lemma remaining_displays_alt (cat : list entry) (u : gmap string Z) :
  remaining_displays cat u =
    filter (λ d, d ∉ favorite_displays cat u) (display <$> sorted display_lt cat).
Proof. exact (filter_fmap_commute display (λ d, d ∉ favorite_displays cat u) _). Qed.

(** X5.  The order of the catalog entries shows in the favourites
    portion only.  For two catalogs with the same entries in different
    orders the favourite codes are the same list, the remainder
    portion is the same list, and the favourites portion holds the
    same displays. *)
Theorem catalog_order_moves_favorites_only (cat cat' : list entry) (u : gmap string Z) :
  cat ≡ₚ cat' →
  favorite_codes cat u = favorite_codes cat' u
  ∧ remainder_portion cat u = remainder_portion cat' u
  ∧ favorites_portion cat u ≡ₚ favorites_portion cat' u.
Proof.
  intros Hp.
  assert (favorite_codes cat u = favorite_codes cat' u) as Hc.
  { unfold favorite_codes, favorites_sorted.
    change (sorted key_lt (valid_usage cat u)) with (ranking cat u).
    change (sorted key_lt (valid_usage cat' u)) with (ranking cat' u).
    by rewrite (ranking_Permutation cat cat' u Hp). }
  assert (favorite_displays cat u ≡ₚ favorite_displays cat' u) as Hf.
  { unfold favorite_displays. rewrite Hc. by rewrite Hp. }
  split_and!; [done| |by rewrite !favorites_portion_eq].
  rewrite !remainder_portion_eq, !remaining_displays_alt.
  rewrite (sorted_displays_Permutation cat cat' Hp).
  apply filter_ext_in. intros d _. by rewrite Hf.
Qed.

Lemma catalog_order_moves_favorites_only_witness :
  favorite_codes (reverse FALLBACK_KDL_DATA) usage_C34_A01
  = favorite_codes FALLBACK_KDL_DATA usage_C34_A01.
Proof.
  refine (proj1 (catalog_order_moves_favorites_only _ _ usage_C34_A01 _)).
  apply reverse_Permutation.
Defined.

(** ** More on [generate_qr] *)

Lemma generate_qr_cases (cat : list entry) (fits : string → bool) (st : state) :
  (∃ c p, generate_qr cat fits st
          = (Composed c p,
             State (<[c := usage_get (usage_data st) c + 1]> (usage_data st))
               (fallnummer_entry st) (kdl_var st) (Some p)
               (update_dropdown cat
                  (<[c := usage_get (usage_data st) c + 1]> (usage_data st))),
             [SaveUsage (<[c := usage_get (usage_data st) c + 1]> (usage_data st))])
          ∧ get_kdl_code cat (PyStr.strip (kdl_var st)) = Some c
          ∧ c ≠ ""
          ∧ PyStr.strip (kdl_var st) ≠ ""
          ∧ PyStr.strip (kdl_var st) ≠ SEPARATOR
          ∧ PyStr.strip (fallnummer_entry st) ≠ ""
          ∧ p = qr_data (PyStr.strip (fallnummer_entry st)) c
          ∧ fits p = true)
  ∨ (∃ message, generate_qr cat fits st = (Rejected, st, [ShowError "Fehler" message])
       ∧ (PyStr.strip (kdl_var st) = "" ∨ PyStr.strip (kdl_var st) = SEPARATOR
          ∨ get_kdl_code cat (PyStr.strip (kdl_var st)) = None
          ∨ get_kdl_code cat (PyStr.strip (kdl_var st)) = Some ""
          ∨ PyStr.strip (fallnummer_entry st) = ""))
  ∨ (generate_qr cat fits st = (Raised, st, [Traceback])
       ∧ ∃ c, get_kdl_code cat (PyStr.strip (kdl_var st)) = Some c
              ∧ fits (qr_data (PyStr.strip (fallnummer_entry st)) c) = false).
Proof.
  unfold generate_qr.
  destruct (String.eqb_spec (PyStr.strip (kdl_var st)) "") as [Hd|Hd]; simpl.
  { right. left. eexists. split; [done|]. by left. }
  destruct (String.eqb_spec (PyStr.strip (kdl_var st)) "---") as [Hs|Hs]; simpl.
  { right. left. eexists. split; [done|]. right. by left. }
  destruct (get_kdl_code cat (PyStr.strip (kdl_var st))) as [c|] eqn:Hc.
  2:{ right. left. eexists. split; [done|]. right. right. by left. }
  destruct (String.eqb_spec (PyStr.strip (fallnummer_entry st)) "") as [Hf|Hf]; simpl.
  { right. left. eexists. split; [done|]. do 4 right. done. }
  destruct (String.eqb_spec c "") as [Hce|Hce]; simpl.
  { right. left. eexists. split; [done|]. do 3 right. left. by rewrite Hce. }
  destruct (fits _) eqn:Hfit.
  - left. exists c, (qr_data (PyStr.strip (fallnummer_entry st)) c). split_and!; done.
  - right. right. split; [done|]. by exists c.
Qed.

(** X8.  A run of [generate_qr] composes exactly when the selection,
    stripped, is neither empty nor the separator and is the display of
    a catalog entry whose code is not empty, the case number, stripped,
    is not empty, and [qrcode.make] takes the payload.  An entry with
    an empty code can thus never be composed. *)
Theorem generate_qr_composes_iff (cat : list entry) (fits : string → bool) (st : state)
    (c : string) :
  (∃ p st' log, generate_qr cat fits st = (Composed c p, st', log))
  ↔ get_kdl_code cat (PyStr.strip (kdl_var st)) = Some c
    ∧ c ≠ ""
    ∧ PyStr.strip (kdl_var st) ≠ ""
    ∧ PyStr.strip (kdl_var st) ≠ SEPARATOR
    ∧ PyStr.strip (fallnummer_entry st) ≠ ""
    ∧ fits (qr_data (PyStr.strip (fallnummer_entry st)) c) = true.
Proof.
  destruct (generate_qr_cases cat fits st)
    as [(c0 & p & Heq & Hc & Hne & Hd & Hs & Hf & -> & Hfit)
       |[(message & Heq & Hwhy)|(Heq & c0 & Hc & Hfit)]]; rewrite Heq.
  - split.
    + intros (p' & st' & log & [= -> _ _ _]). done.
    + intros (Hc' & _). rewrite Hc in Hc'. injection Hc' as ->. by eexists _, _, _.
  - split; [by intros (? & ? & ? & ?)|].
    intros (Hc & Hne & Hd & Hs & Hf & _).
    destruct Hwhy as [?|[?|[?|[?|?]]]]; congruence.
  - split; [by intros (? & ? & ? & ?)|].
    intros (Hc' & _ & _ & _ & _ & Hfit'). congruence.
Qed.

(** X9.  A run of [generate_qr] never touches the case-number entry
    or the selection, and unless it composes it changes nothing at all
    and saves nothing; this holds also when [qrcode.make] raises, which
    happens before the count is raised.  When it composes, the code
    counted is a non-empty code of the catalog. *)
Theorem generate_qr_frame (cat : list entry) (fits : string → bool) (st st' : state)
    (o : outcome) (log : list effect) :
  generate_qr cat fits st = (o, st', log) →
  fallnummer_entry st' = fallnummer_entry st
  ∧ kdl_var st' = kdl_var st
  ∧ match o with
    | Composed c p => c ∈ code <$> cat ∧ c ≠ "" ∧ qr_pil st' = Some p
    | Rejected | Raised => st' = st ∧ ∀ data, SaveUsage data ∉ log
    end.
Proof.
  destruct (generate_qr_cases cat fits st)
    as [(c0 & p & Heq & Hc & Hne & _)
       |[(message & Heq & _)|(Heq & _)]]; rewrite Heq; intros [= <- <- <-]; simpl.
  - split_and!; [done..| |done|done].
    apply lookup_display_Some in Hc as (e & He & _ & <-). by apply list_elem_of_fmap_2.
  - split_and!; [done..|]. intros data H.
    apply list_elem_of_singleton in H. discriminate H.
  - split_and!; [done..|]. intros data H.
    apply list_elem_of_singleton in H. discriminate H.
Qed.

Lemma generate_qr_frame_witness :
  fallnummer_entry (generate_qr FALLBACK_KDL_DATA (λ _, false) st_C34_selected).1.2
  = fallnummer_entry st_C34_selected
  ∧ (generate_qr FALLBACK_KDL_DATA (λ _, false) st_C34_selected).1.2 = st_C34_selected.
Proof.
  destruct (generate_qr_frame FALLBACK_KDL_DATA (λ _, false) st_C34_selected
              (generate_qr FALLBACK_KDL_DATA (λ _, false) st_C34_selected).1.2
              Raised
              (generate_qr FALLBACK_KDL_DATA (λ _, false) st_C34_selected).2)
    as (H1 & _ & H2 & _); [vm_compute; reflexivity|].
  split; [exact H1|exact H2].
Defined.

Lemma usage_get_step (u : gmap string Z) (c c' : string) :
  usage_get u c' ≤ usage_get (<[c := usage_get u c + 1]> u) c' ≤ usage_get u c' + 1.
Proof.
  destruct (decide (c' = c)) as [->|Hne].
  - rewrite usage_get_insert. lia.
  - rewrite usage_get_insert_ne by done. lia.
Qed.

Lemma generate_qr_usage (cat : list entry) (fits : string → bool) (st st' : state)
    (o : outcome) (log : list effect) :
  generate_qr cat fits st = (o, st', log) →
  (∀ c, usage_get (usage_data st) c ≤ usage_get (usage_data st') c
          ≤ usage_get (usage_data st) c + 1)
  ∧ dom (usage_data st) ⊆ dom (usage_data st')
  ∧ (∀ c, c ∈ dom (usage_data st') → c ∈ dom (usage_data st) ∨ c ∈ code <$> cat).
Proof.
  destruct (generate_qr_cases cat fits st)
    as [(c0 & p & Heq & Hc & _)
       |[(message & Heq & _)|(Heq & _)]]; rewrite Heq; intros [= <- <- <-]; simpl.
  - split_and!.
    + intros c. apply usage_get_step.
    + rewrite dom_insert. set_solver.
    + intros c. rewrite dom_insert, elem_of_union, elem_of_singleton.
      intros [->|?]; [right|by left].
      apply lookup_display_Some in Hc as (e & He & _ & <-). by apply list_elem_of_fmap_2.
  - split_and!; [intros; lia|done|by left].
  - split_and!; [intros; lia|done|by left].
Qed.


(** X10.  A run of [generate_qr] never lowers a count and raises
    none by more than one; no key of the usage mapping is lost, and a
    key that is new is a code of the catalog. *)
Theorem generate_qr_counts_grow (cat : list entry) (fits : string → bool) (st st' : state)
    (o : outcome) (log : list effect) :
  generate_qr cat fits st = (o, st', log) →
  (∀ c, usage_get (usage_data st) c ≤ usage_get (usage_data st') c
          ≤ usage_get (usage_data st) c + 1)
  ∧ dom (usage_data st) ⊆ dom (usage_data st')
  ∧ (∀ c, c ∈ dom (usage_data st') → c ∈ dom (usage_data st) ∨ c ∈ code <$> cat).
Proof. apply generate_qr_usage. Qed.

Lemma generate_qr_counts_grow_witness :
  usage_get (usage_data st_C34_selected) "C34"
  ≤ usage_get (usage_data
       (generate_qr FALLBACK_KDL_DATA (λ _, true) st_C34_selected).1.2) "C34"
  ≤ usage_get (usage_data st_C34_selected) "C34" + 1.
Proof.
  refine (proj1 (generate_qr_counts_grow FALLBACK_KDL_DATA (λ _, true) st_C34_selected
                   _ (generate_qr FALLBACK_KDL_DATA (λ _, true) st_C34_selected).1.1
                   (generate_qr FALLBACK_KDL_DATA (λ _, true) st_C34_selected).2 _) "C34").
  vm_compute. reflexivity.
Defined.

(** ** Sequences of actions *)

Section Session.
Variable cat : list entry.
Variable fits : string → bool.

Local Abbreviation in_sync := (in_sync cat).

Lemma init_in_sync usage fall_arg : in_sync (init cat usage fall_arg).
Proof. split; [done|by left]. Qed.

Lemma step_in_sync a st : in_sync st → in_sync (step cat fits a st).1.
Proof.
  intros [Hd Hv]. destruct a as [text|i| |]; simpl.
  - done.
  - destruct (kdl_dropdown st !! i) as [v|] eqn:E; simpl; [|done].
    split; [done|]. right. apply list_elem_of_lookup_2 in E. rewrite Hd in E.
    by apply update_dropdown_elem in E.
  - destruct (generate_qr_cases cat fits st)
      as [(c0 & p & Heq & _)|[(message & Heq & _)|(Heq & _)]]; rewrite Heq; done.
  - done.
Qed.

Lemma run_in_sync acts st : in_sync st → in_sync (run cat fits acts st).1.
Proof.
  revert st. induction acts as [|a acts IH]; intros st Hst; simpl; [done|].
  pose proof (step_in_sync a st Hst) as H1.
  destruct (step cat fits a st) as [st1 log1]. simpl in H1.
  specialize (IH st1 H1). destruct (run cat fits acts st1) as [st2 log2]. done.
Qed.

Lemma last_saved_app log1 log2 :
  last_saved (log1 ++ log2) =
    match last_saved log2 with
    | Some data => Some data
    | None => last_saved log1
    end.
Proof.
  induction log1 as [|e log1 IH]; simpl; [by destruct (last_saved log2)|].
  rewrite IH. by destruct (last_saved log2), (last_saved log1).
Qed.

Lemma step_saved a st :
  saved_is_current (usage_data st) (step cat fits a st).1 (step cat fits a st).2.
Proof.
  destruct a as [text|i| |]; simpl; try done.
  - by destruct (kdl_dropdown st !! i).
  - destruct (generate_qr_cases cat fits st)
      as [(c0 & p & Heq & _)|[(message & Heq & _)|(Heq & _)]]; rewrite Heq; done.
Qed.

Lemma run_saved acts st :
  saved_is_current (usage_data st) (run cat fits acts st).1 (run cat fits acts st).2.
Proof.
  revert st. induction acts as [|a acts IH]; intros st; simpl; [done|].
  pose proof (step_saved a st) as H1.
  destruct (step cat fits a st) as [st1 log1]. simpl in H1.
  specialize (IH st1). destruct (run cat fits acts st1) as [st2 log2]. simpl in *.
  unfold saved_is_current in *. rewrite last_saved_app.
  destruct (last_saved log2) as [d2|]; [done|].
  destruct (last_saved log1) as [d1|]; congruence.
Qed.

Lemma step_counts a st :
  (∀ c, 0 ≤ usage_get (usage_data st) c → 0 ≤ usage_get (usage_data (step cat fits a st).1) c)
  ∧ (a ≠ ClickReset →
     ∀ c, usage_get (usage_data st) c ≤ usage_get (usage_data (step cat fits a st).1) c)
  ∧ (∀ c, c ∈ dom (usage_data (step cat fits a st).1) →
          c ∈ dom (usage_data st) ∨ c ∈ code <$> cat).
Proof.
  destruct a as [text|i| |]; simpl.
  - split_and!; [done|intros; lia|by left].
  - destruct (kdl_dropdown st !! i); simpl; (split_and!; [done|intros; lia|by left]).
  - destruct (generate_qr cat fits st) as [[o st'] log] eqn:E. simpl.
    destruct (generate_qr_usage cat fits st st' o log E) as (Hgrow & _ & Hdom).
    split_and!; [|intros _ c; apply Hgrow|done].
    intros c Hc. pose proof (Hgrow c). lia.
  - split_and!; [intros c _; by vm_compute|done|].
    intros c Hc. rewrite dom_empty in Hc. by apply elem_of_empty in Hc.
Qed.

Lemma run_counts acts st :
  ((∀ c, 0 ≤ usage_get (usage_data st) c) →
   ∀ c, 0 ≤ usage_get (usage_data (run cat fits acts st).1) c)
  ∧ (ClickReset ∉ acts →
     ∀ c, usage_get (usage_data st) c ≤ usage_get (usage_data (run cat fits acts st).1) c)
  ∧ (∀ c, c ∈ dom (usage_data (run cat fits acts st).1) →
          c ∈ dom (usage_data st) ∨ c ∈ code <$> cat).
Proof.
  revert st. induction acts as [|a acts IH]; intros st; simpl.
  { split_and!; [done|intros; lia|by left]. }
  destruct (step_counts a st) as (H1 & H2 & H3).
  destruct (step cat fits a st) as [st1 log1]. simpl in *.
  destruct (IH st1) as (I1 & I2 & I3).
  destruct (run cat fits acts st1) as [st2 log2]. simpl in *.
  split_and!.
  - intros Hst. apply I1. intros c. by apply H1.
  - intros Hn c. apply not_elem_of_cons in Hn as [Hne Hn].
    etransitivity; [apply H2; congruence|by apply I2].
  - intros c Hc. destruct (I3 c Hc) as [Hc1|?]; [|by right]. by apply H3.
Qed.

End Session.

(** X11.  From the start of the application on, whatever the user
    does, the dropdown list is the one [update_dropdown] makes of the
    current counts, and the selection is empty, the separator or a
    display of the catalog. *)
Theorem session_dropdown_in_sync (cat : list entry) (fits : string → bool)
    (usage : gmap string Z) (fall_arg : option string) (acts : list action) :
  let st := (run cat fits acts (init cat usage fall_arg)).1 in
  kdl_dropdown st = update_dropdown cat (usage_data st)
  ∧ (kdl_var st = "" ∨ kdl_var st = SEPARATOR ∨ kdl_var st ∈ display <$> cat).
Proof. apply run_in_sync, init_in_sync. Qed.

(** X12.  Whatever the user does, the mapping saved last is the
    mapping in memory: after any sequence of actions the last
    [save_usage] call of the sequence was made with the current usage
    mapping, and if the sequence made no such call the mapping is the
    one before the sequence. *)
Theorem session_saved_is_current (cat : list entry) (fits : string → bool)
    (acts : list action) (st : state) :
  match last_saved (run cat fits acts st).2 with
  | Some data => data = usage_data (run cat fits acts st).1
  | None => usage_data (run cat fits acts st).1 = usage_data st
  end.
Proof. apply run_saved. Qed.

(** X13.  Counts that are not negative at the start never become
    negative; as long as the user does not reset, no count goes down;
    and whatever the user does, a key that comes into the usage mapping
    is a code of the catalog. *)
Theorem session_counts (cat : list entry) (fits : string → bool)
    (acts : list action) (st : state) :
  ((∀ c, 0 ≤ usage_get (usage_data st) c) →
   ∀ c, 0 ≤ usage_get (usage_data (run cat fits acts st).1) c)
  ∧ (ClickReset ∉ acts →
     ∀ c, usage_get (usage_data st) c ≤ usage_get (usage_data (run cat fits acts st).1) c)
  ∧ (∀ c, c ∈ dom (usage_data (run cat fits acts st).1) →
          c ∈ dom (usage_data st) ∨ c ∈ code <$> cat).
Proof. apply run_counts. Qed.

Lemma session_counts_witness :
  usage_get (usage_data st_C34_selected) "C34"
  ≤ usage_get (usage_data
       (run FALLBACK_KDL_DATA (λ _, true)
          [ClickGenerate; EnterFallnummer "12"; ClickGenerate] st_C34_selected).1) "C34".
Proof.
  refine (proj1 (proj2 (session_counts FALLBACK_KDL_DATA (λ _, true)
                          [ClickGenerate; EnterFallnummer "12"; ClickGenerate]
                          st_C34_selected)) _ "C34").
  intros H. repeat (apply elem_of_cons in H as [H|H]; [discriminate H|]).
  by apply elem_of_nil in H.
Defined.

(** ** The payload as a text *)

Lemma append_brace_inj (a b : string) :
  (a ++ "}" = b ++ "}")%string → a = b.
Proof.
  revert b. induction a as [|x a IH]; intros [|y b]; simpl; intros H.
  - done.
  - injection H as _ H. by destruct b.
  - injection H as _ H. by destruct a.
  - injection H as -> H. by rewrite (IH b H).
Qed.

Lemma first_comma_inj (f f' t t' : string) :
  no_comma f = true → no_comma f' = true →
  (f ++ String "," t = f' ++ String "," t')%string → f = f' ∧ t = t'.
Proof.
  revert f'. induction f as [|x f IH]; intros [|y f']; simpl; intros Hf Hf' H.
  - by injection H as ->.
  - injection H as <- _. done.
  - injection H as -> _. done.
  - injection H as -> H.
    apply andb_true_iff in Hf as [_ Hf]. apply andb_true_iff in Hf' as [_ Hf'].
    destruct (IH f' Hf Hf' H) as [-> ->]. done.
Qed.

(** X14.  For case numbers without a comma the payload tells the case
    number and the code: two payloads are equal only when both the
    case numbers and the codes are equal. *)
Theorem payload_unambiguous (fallnummer fallnummer' code code' : string) :
  no_comma fallnummer = true → no_comma fallnummer' = true →
  qr_data fallnummer code = qr_data fallnummer' code' →
  fallnummer = fallnummer' ∧ code = code'.
Proof.
  intros Hf Hf'. rewrite !qr_data_template. unfold payload_template. simpl.
  intros [= H].
  destruct (first_comma_inj _ _ _ _ Hf Hf' H) as [-> Ht]. split; [done|].
  injection Ht as Ht. by apply append_brace_inj.
Qed.

Lemma payload_unambiguous_witness : "4711" = "4711" ∧ "C34" = "C34".
Proof. apply (payload_unambiguous "4711" "4711" "C34" "C34"); reflexivity. Defined.

(** ** The launch parameter *)

Lemma lower_char_eq_sign (c : ascii) :
  Launch.lower_char c = "="%char ↔ c = "="%char.
Proof.
  destruct c as [[] [] [] [] [] [] [] []]; vm_compute; split; intros H;
    first [reflexivity | discriminate H].
Qed.

Lemma prefix_cons (a b : ascii) (s1 s2 : string) :
  String.prefix (String a s1) (String b s2) = true ↔ a = b ∧ String.prefix s1 s2 = true.
Proof.
  simpl. destruct (ascii_dec a b) as [->|Hne]; [tauto|].
  split; [done|]. by intros [? _].
Qed.

(** An argument of the form [fall=<value>], in any case of letters:
    four characters that are not ["="], then ["="], then the value. *)
Lemma fall_eq_form (s : string) :
  String.prefix "fall=" (Launch.lower s) = true →
  ∃ c0 c1 c2 c3 v,
    s = String c0 (String c1 (String c2 (String c3 (String "=" v))))
    ∧ Launch.lower (String c0 (String c1 (String c2 (String c3 EmptyString)))) = "fall"
    ∧ Launch.split_eq s !! 1%nat = Some v.
Proof.
  destruct s as [|c0 [|c1 [|c2 [|c3 [|c4 v]]]]]; simpl Launch.lower;
    rewrite ?prefix_cons; try (simpl; intuition congruence).
  intros (H0 & H1 & H2 & H3 & H4 & _).
  symmetry in H4. apply lower_char_eq_sign in H4 as ->.
  exists c0, c1, c2, c3, v. split_and!; [done|by rewrite <- H0, <- H1, <- H2, <- H3|].
  assert (∀ c x, x ≠ "="%char → x = Launch.lower_char c → Ascii.eqb c "=" = false) as Hne.
  { intros c x Hx ->. destruct (Ascii.eqb_spec c "=") as [->|]; [|done].
    by destruct Hx. }
  unfold Launch.split_eq. simpl.
  rewrite (Hne c0 "f"%char), (Hne c1 "a"%char), (Hne c2 "l"%char), (Hne c3 "l"%char)
    by done.
  reflexivity.
Qed.

Lemma parse_args_cons (a : string) (rest : list string) :
  Launch.parse_args (a :: rest) =
    if String.prefix "fall=" (Launch.lower (PyStr.strip a)) then
      match Launch.split_eq (PyStr.strip a) !! 1%nat with
      | Some v => Launch.Started (Some v)
      | None => Launch.IndexError
      end
    else if bool_decide (Launch.lower (PyStr.strip a) ∈ ["--fall"; "/fall"; "-fall"]) then
      match rest with
      | v :: _ => Launch.Started (Some v)
      | [] => Launch.Started None
      end
    else Launch.parse_args rest.
Proof. reflexivity. Qed.

Lemma parse_args_skip (pre rest : list string) :
  Forall (λ x, Launch.is_fall_arg x = false) pre →
  Launch.parse_args (pre ++ rest) = Launch.parse_args rest.
Proof.
  induction 1 as [|x pre Hx Hpre IH]; [done|].
  change ((x :: pre) ++ rest) with (x :: (pre ++ rest)). rewrite parse_args_cons.
  unfold Launch.is_fall_arg in Hx. apply orb_false_iff in Hx as [-> ->]. done.
Qed.

(** X15.  The loop over the arguments never raises: whatever the
    arguments are, the application starts.  When no argument is
    [fall=...] or one of the flags [--fall], [/fall], [-fall] (in any
    case of letters, white space around it aside), it starts without a
    value, so with an empty case-number entry. *)
Theorem launch_never_fails (cat : list entry) (usage : gmap string Z) (args : list string) :
  Launch.parse_args args ≠ Launch.IndexError
  ∧ (Forall (λ x, Launch.is_fall_arg x = false) args →
     Launch.parse_args args = Launch.Started None
     ∧ fallnummer_entry (init cat usage None) = "").
Proof.
  split.
  - induction args as [|a rest IH]; [done|]. rewrite parse_args_cons.
    destruct (String.prefix _ _) eqn:E.
    + destruct (fall_eq_form _ E) as (c0 & c1 & c2 & c3 & v & _ & _ & ->). done.
    + destruct (bool_decide _); [by destruct rest|done].
  - intros H. split; [|done].
    rewrite <- (app_nil_r args). by rewrite (parse_args_skip args []).
Qed.

(** X16.  The first argument that is [fall=...] or a flag decides,
    whatever follows it.  For [fall=<value>] the value is the text
    behind the first ["="] of the stripped argument, which may hold
    further ["="] and may be empty.  For a flag the value is the next
    argument, as it is (not stripped), and there is no value when the
    flag is the last argument. *)
Theorem launch_first_match (pre rest : list string) (a : string) :
  Forall (λ x, Launch.is_fall_arg x = false) pre →
  (∀ c0 c1 c2 c3 v,
     PyStr.strip a = String c0 (String c1 (String c2 (String c3 (String "=" v)))) →
     Launch.lower (String c0 (String c1 (String c2 (String c3 EmptyString)))) = "fall" →
     Launch.parse_args (pre ++ a :: rest) = Launch.Started (Some v))
  ∧ (Launch.lower (PyStr.strip a) ∈ ["--fall"; "/fall"; "-fall"] →
     Launch.parse_args (pre ++ a :: rest) = Launch.Started (head rest)).
Proof.
  intros Hpre. rewrite (parse_args_skip pre (a :: rest) Hpre), parse_args_cons. split.
  - intros c0 c1 c2 c3 v Hs Hlow.
    assert (String.prefix "fall=" (Launch.lower (PyStr.strip a)) = true) as E.
    { rewrite Hs. simpl Launch.lower in Hlow |- *. injection Hlow as -> -> -> ->.
      rewrite !prefix_cons. split_and!; try reflexivity. by destruct v. }
    rewrite E. destruct (fall_eq_form _ E) as (d0 & d1 & d2 & d3 & v' & Hs' & _ & ->).
    rewrite Hs in Hs'. by injection Hs' as _ _ _ _ ->.
  - intros Hflag.
    assert (String.prefix "fall=" (Launch.lower (PyStr.strip a)) = false) as ->.
    { repeat (apply elem_of_cons in Hflag as [->|Hflag]; [reflexivity|]).
      by apply elem_of_nil in Hflag. }
    rewrite bool_decide_eq_true_2 by done. by destruct rest.
Qed.

Lemma launch_first_match_witness :
  Launch.parse_args (["-v"; "x=1"] ++ " Fall=47=11 " :: ["fall=0"])
  = Launch.Started (Some "47=11").
Proof.
  refine (proj1 (launch_first_match ["-v"; "x=1"] ["fall=0"] " Fall=47=11 " _)
            "F"%char "a"%char "l"%char "l"%char "47=11" _ _).
  - repeat constructor.
  - reflexivity.
  - reflexivity.
Defined.

(** ** The size of the label *)

Lemma trunc_cm_bounds (k dpi : Z) :
  100000000000 * LabelSpec.trunc_cm k dpi ≤ k * 3937007874 * dpi
  < 100000000000 * (LabelSpec.trunc_cm k dpi + 1).
Proof.
  unfold LabelSpec.trunc_cm. change (10 * 10000000000) with 100000000000.
  generalize (k * 3937007874 * dpi). intros n. Z.div_mod_to_equations. lia.
Qed.

(** X17.  On every device from 1 to 9600 dpi, in both versions, the
    QR block is a square of at most 2.5 cm in either direction (an
    inch being 2.54 cm) and misses 2.5 cm in the coarser direction by
    less than two pixels; the label image is at most 4 cm wide. *)
Theorem qr_block_at_most_25mm (dpi_x dpi_y : Z) :
  1 ≤ dpi_x ≤ MAX_DPI → 1 ≤ dpi_y ≤ MAX_DPI →
  ∃ l110 l200 side,
    V110.print_layout dpi_x dpi_y = Some l110
    ∧ V200.print_layout dpi_x dpi_y = Some l200
    ∧ qr_size l110 = (side, side) ∧ qr_size l200 = (side, side)
    ∧ 254 * side ≤ 250 * dpi_x ∧ 254 * side ≤ 250 * dpi_y
    ∧ 250 * Z.min dpi_x dpi_y < 254 * (side + 2)
    ∧ 254 * (image_size l110).1 ≤ 400 * dpi_x
    ∧ 254 * (image_size l200).1 ≤ 400 * dpi_x.
Proof.
  intros Hx Hy.
  rewrite print_layout_V110, print_layout_V200 by done. cbv zeta.
  assert (∃ m, m = Z.min dpi_x dpi_y) as [m Hm] by by eexists.
  rewrite <- Hm.
  assert (m ≤ dpi_x ∧ m ≤ dpi_y ∧ (m = dpi_x ∨ m = dpi_y)) as Hmin by lia.
  clear Hm.
  pose proof (trunc_cm_bounds 25 m).
  pose proof (trunc_cm_bounds 40 dpi_x).
  unfold MAX_DPI in *.
  eexists _, _, (LabelSpec.trunc_cm 25 m). split_and!; try reflexivity; simpl; lia.
Qed.

Lemma qr_block_at_most_25mm_witness :
  ∃ l110 l200 side,
    V110.print_layout 203 203 = Some l110
    ∧ V200.print_layout 203 203 = Some l200
    ∧ qr_size l110 = (side, side) ∧ qr_size l200 = (side, side)
    ∧ 254 * side ≤ 250 * 203.
Proof.
  destruct (qr_block_at_most_25mm 203 203) as (l110 & l200 & side & H1 & H2 & H3 & H4 & H5 & _);
    [unfold MAX_DPI; lia..|].
  exists l110, l200, side. split_and!; done.
Defined.

(** X18.  In V200, on a device of at least 18 dpi across and 2 dpi
    down, the QR block and the anchors of the three text lines lie in
    the label image.  In V110 they do when the resolution down is at
    least 7 dpi and at most three times the resolution across. *)
Theorem layout_inside_image (dpi_x dpi_y : Z) :
  1 ≤ dpi_x ≤ MAX_DPI → 1 ≤ dpi_y ≤ MAX_DPI →
  (18 ≤ dpi_x → 2 ≤ dpi_y →
   ∃ l, V200.print_layout dpi_x dpi_y = Some l ∧ inside_image l)
  ∧ (7 ≤ dpi_y → dpi_y ≤ 3 * dpi_x →
     ∃ l, V110.print_layout dpi_x dpi_y = Some l ∧ inside_image l).
Proof.
  intros Hx Hy.
  rewrite print_layout_V110, print_layout_V200 by done. cbv zeta.
  assert (∃ m, m = Z.min dpi_x dpi_y) as [m Hm] by by eexists.
  rewrite <- Hm.
  assert (m ≤ dpi_x ∧ m ≤ dpi_y ∧ (m = dpi_x ∨ m = dpi_y)) as Hmin by lia.
  clear Hm.
  pose proof (trunc_cm_bounds 25 m).
  pose proof (trunc_cm_bounds 40 dpi_x).
  pose proof (trunc_cm_bounds 4 dpi_y).
  pose proof (trunc_cm_bounds 2 dpi_x).
  pose proof (trunc_cm_bounds 7 dpi_y).
  unfold MAX_DPI in *.
  split; intros Hlo Hhi; eexists; (split; [reflexivity|]);
    unfold inside_image; simpl; lia.
Qed.

Lemma layout_inside_image_witness :
  ∃ l, V200.print_layout 300 300 = Some l ∧ inside_image l.
Proof.
  refine (proj1 (layout_inside_image 300 300 _ _) _ _); unfold MAX_DPI; lia.
Defined.

(** ** Printing *)

Lemma print_page_Printed (print_layout : Z → Z → option layout) (pr : printer)
    (st : state) (payload : string) (l : label) :
  print_page print_layout pr st payload = Printed l →
  label_qr l = payload
  ∧ label_fallnummer l = ("Fallnummer: " ++ PyStr.strip (fallnummer_entry st))%string
  ∧ label_kdl l = ("KDL: " ++ PyStr.strip (kdl_var st))%string
  ∧ ∃ dpi_x dpi_y, device_dpi pr = Some (dpi_x, dpi_y)
                   ∧ print_layout dpi_x dpi_y = Some (label_layout l)
                   ∧ accepts pr (label_layout l) = true.
Proof.
  unfold print_page. destruct (device_dpi pr) as [[dpi_x dpi_y]|]; [|done].
  destruct (print_layout dpi_x dpi_y) as [lay|] eqn:E; [|done].
  destruct (accepts pr lay) eqn:Ea; [|done].
  intros [= <-]. simpl. split_and!; [done..|]. by exists dpi_x, dpi_y.
Qed.

(** X19.  The printed QR code is the one of the last composition, the
    printed text is what the window shows at the time of printing.
    After a run that composed for a code, in any later state that
    still holds that QR image, a label printed by either version
    carries the payload of that run, with the case number of that run,
    and the two text lines made of the stripped case-number entry and
    the stripped selection of the later state; so text and QR code
    agree when the two were not edited in between. *)
Theorem printed_label_after_compose (cat : list entry) (fits : string → bool)
    (st st1 st2 : state) (c p : string) (log : list effect) (pr : printer) (l : label) :
  generate_qr cat fits st = (Composed c p, st1, log) →
  qr_pil st2 = qr_pil st1 →
  print_qr_V110 pr st2 = Printed l ∨ print_qr_V200 pr st2 = Printed l →
  label_qr l = payload_template (PyStr.strip (fallnummer_entry st)) c
  ∧ label_fallnummer l = ("Fallnummer: " ++ PyStr.strip (fallnummer_entry st2))%string
  ∧ label_kdl l = ("KDL: " ++ PyStr.strip (kdl_var st2))%string
  ∧ (fallnummer_entry st2 = fallnummer_entry st →
     label_qr l = payload_template
                    (PyStr.strip (fallnummer_entry st2)) c).
Proof.
  intros Hg Hq Hp.
  apply generate_qr_composed in Hg as (_ & _ & _ & -> & _ & -> & _). simpl in Hq.
  assert (label_qr l = qr_data (PyStr.strip (fallnummer_entry st)) c
          ∧ label_fallnummer l = ("Fallnummer: " ++ PyStr.strip (fallnummer_entry st2))%string
          ∧ label_kdl l = ("KDL: " ++ PyStr.strip (kdl_var st2))%string) as (H1 & H2 & H3).
  { destruct Hp as [Hp|Hp]; unfold print_qr_V110, print_qr_V200 in Hp; rewrite Hq in Hp.
    - apply print_page_Printed in Hp as (? & ? & ? & _). done.
    - destruct (dialog pr) as [[|]|]; [|done..].
      apply print_page_Printed in Hp as (? & ? & ? & _). done. }
  rewrite H1, qr_data_template. split_and!; [done..|]. by intros ->.
Qed.

Lemma printed_label_after_compose_witness :
  ∃ l,
    print_qr_V200 (Printer (Some true) (Some (300, 300)) (λ _, true))
      (generate_qr FALLBACK_KDL_DATA (λ _, true) st_C34_selected).1.2 = Printed l
    ∧ label_qr l = payload_template "4711" "C34"
    ∧ label_fallnummer l = "Fallnummer: 4711".
Proof.
  assert (∃ l, print_qr_V200 (Printer (Some true) (Some (300, 300)) (λ _, true))
                 (generate_qr FALLBACK_KDL_DATA (λ _, true) st_C34_selected).1.2
               = Printed l) as [l Hl]
    by (eexists; vm_compute; reflexivity).
  exists l. split; [exact Hl|].
  assert (generate_qr FALLBACK_KDL_DATA (λ _, true) st_C34_selected
          = (Composed "C34" "{sys:GUN_CID,cid:4711,formid:C34}",
             (generate_qr FALLBACK_KDL_DATA (λ _, true) st_C34_selected).1.2,
             (generate_qr FALLBACK_KDL_DATA (λ _, true) st_C34_selected).2)) as Hg
    by (vm_compute; reflexivity).
  destruct (printed_label_after_compose FALLBACK_KDL_DATA (λ _, true) st_C34_selected
              _ _ "C34" _ _ _ l Hg eq_refl (or_intror Hl)) as (H1 & H2 & _).
  split; [exact H1|exact H2].
Defined.

Lemma step_keeps_image (cat : list entry) (fits : string → bool) (a : action) (st : state) :
  a ≠ ClickGenerate → qr_pil (step cat fits a st).1 = qr_pil st.
Proof.
  destruct a as [text|i| |]; simpl; try done.
  intros _. by destruct (kdl_dropdown st !! i).
Qed.

Lemma run_keeps_image (cat : list entry) (fits : string → bool) (acts : list action)
    (st : state) :
  ClickGenerate ∉ acts → qr_pil (run cat fits acts st).1 = qr_pil st.
Proof.
  revert st. induction acts as [|a acts IH]; intros st Hn; simpl; [done|].
  apply not_elem_of_cons in Hn as [Hne Hn].
  pose proof (step_keeps_image cat fits a st) as H1.
  destruct (step cat fits a st) as [st1 log1]. simpl in H1.
  specialize (IH st1 Hn). destruct (run cat fits acts st1) as [st2 log2]. simpl in *.
  rewrite IH. apply H1. congruence.
Qed.

(** X20.  Only [generate_qr] changes the QR image.  Typing, selecting
    and resetting the favourites keep it, so after a reset the last QR
    code is still printed; and from the start of the application until
    the first press of the generate button, printing reports that
    there is no QR code, in both versions. *)
Theorem image_changes_by_generate_only (cat : list entry) (fits : string → bool)
    (acts : list action) :
  ClickGenerate ∉ acts →
  (∀ st, qr_pil (run cat fits acts st).1 = qr_pil st)
  ∧ (∀ usage fall_arg pr,
       print_qr_V110 pr (run cat fits acts (init cat usage fall_arg)).1 = NoImage
       ∧ print_qr_V200 pr (run cat fits acts (init cat usage fall_arg)).1 = NoImage).
Proof.
  intros Hn. split; [intros st; by apply run_keeps_image|].
  intros usage fall_arg pr. unfold print_qr_V110, print_qr_V200.
  by rewrite (run_keeps_image cat fits acts _ Hn).
Qed.

Lemma image_changes_by_generate_only_witness :
  qr_pil (run FALLBACK_KDL_DATA (λ _, true) [ClickReset; EnterFallnummer "1"]
            (generate_qr FALLBACK_KDL_DATA (λ _, true) st_C34_selected).1.2).1
  = Some "{sys:GUN_CID,cid:4711,formid:C34}".
Proof.
  refine (eq_trans (proj1 (image_changes_by_generate_only FALLBACK_KDL_DATA (λ _, true)
                             [ClickReset; EnterFallnummer "1"] _) _) _).
  - intros H. repeat (apply elem_of_cons in H as [H|H]; [discriminate H|]).
    by apply elem_of_nil in H.
  - vm_compute. reflexivity.
Defined.

(** ** More on the loader *)





(** X22.  V200 does not ask the elements of the list to be objects:
    a non-empty list of strings that each contain the words [code] and
    [display] is accepted as the catalog by V200, and rejected by
    V110. *)
Theorem V200_accepts_strings (data : list json) :
  data ≠ [] →
  Forall (λ x, ∃ s, x = JStr s ∧ is_substring "code" s = true
                    ∧ is_substring "display" s = true) data →
  V200Loader.accept (JsonFile (JList data)) = Some data
  ∧ V110Loader.accept (JsonFile (JList data)) = None.
Proof.
  intros Hne Hs. split.
  - apply accept_V200. split; [done|]. eapply Forall_impl; [exact Hs|].
    intros x (s & -> & Hc & Hd). unfold has_keys_V200. simpl. by rewrite Hc, Hd.
  - destruct (V110Loader.accept (JsonFile (JList data))) as [data'|] eqn:E; [|done].
    exfalso. apply accept_V110 in E as [[= <-] Hk].
    destruct data as [|x data]; [done|].
    apply Forall_cons in Hs as [(s & -> & _) _].
    apply Forall_cons in Hk as [(fields & Hx & _) _]. discriminate Hx.
Qed.

Lemma V200_accepts_strings_witness :
  V200Loader.accept (JsonFile (JList [JStr "code display"])) = Some [JStr "code display"]
  ∧ V110Loader.accept (JsonFile (JList [JStr "code display"])) = None.
Proof.
  apply V200_accepts_strings; [done|].
  constructor; [|constructor]. by exists "code display".
Defined.

(** ** The cut to five *)

Lemma filter_take_sorted {A} (R : relation A) (P : A → Prop) `{∀ x, Decision (P x)}
    (l : list A) (n : nat) :
  StronglySorted R l → (∀ x y, x ∈ l → y ∈ l → R x y → P y → P x) →
  filter P (take n l) = take n (filter P l).
Proof.
  intros Hs. revert n. induction Hs as [|x l Hs IH Hx]; intros n HR.
  { by destruct n. }
  assert (∀ x0 y, x0 ∈ l → y ∈ l → R x0 y → P y → P x0) as HR'.
  { intros x0 y Hx0 Hy. apply HR; by right. }
  destruct n as [|n]; [done|]. simpl take at 1. rewrite !filter_cons.
  destruct (decide (P x)) as [Hp|Hp].
  - simpl. by rewrite IH.
  - assert (Forall (λ y, ¬ P y) l) as Hnone.
    { rewrite Forall_forall in Hx |- *. intros y Hy HPy. apply Hp.
      apply (HR x y); [by left|by right|by apply Hx|done]. }
    rewrite (filter_none P l Hnone).
    rewrite (filter_none P (take n l)); [by rewrite take_nil|].
    by apply Forall_take.
Qed.

Lemma used_codes_Permutation (cat : list entry) (u : gmap string Z) :
  NoDup (code <$> cat) →
  (filter (λ kv : string * Z, 0 < usage_get u kv.1) (ranking cat u)).*1
  ≡ₚ code <$> filter (λ e, 0 < usage_get u (code e)) cat.
Proof.
  intros Hnd. apply NoDup_Permutation.
  - apply (sublist_NoDup _ (ranking cat u).*1); [apply ranking_NoDup|].
    apply fmap_sublist, sublist_filter.
  - apply (sublist_NoDup _ (code <$> cat)); [done|].
    apply fmap_sublist, sublist_filter.
  - intros c. rewrite !list_elem_of_fmap. split.
    + intros [[k v] [-> Hk]]. apply list_elem_of_filter in Hk as [Hpos Hk]. simpl in *.
      apply ranking_elem in Hk as [Hk _].
      apply list_elem_of_fmap in Hk as [e [-> He]]. exists e. split; [done|].
      by apply list_elem_of_filter.
    + intros [e [-> He]]. apply list_elem_of_filter in He as [Hpos He].
      exists (code e, usage_get u (code e)). split; [done|].
      apply list_elem_of_filter. split; [done|].
      apply ranking_elem. split; [by apply list_elem_of_fmap_2|done].
Qed.

(** X23.  When no two catalog entries have the same code, the number
    of favourite codes is the number of catalog entries with a
    positive count, cut to five: every used code is a favourite as
    long as there are at most five of them. *)
Theorem favorites_are_used_codes_cut_to_five (cat : list entry) (u : gmap string Z) :
  NoDup (code <$> cat) →
  length (favorite_codes cat u)
  = Nat.min 5 (length (filter (λ e, 0 < usage_get u (code e)) cat)).
Proof.
  intros Hnd. unfold favorite_codes, favorites_sorted.
  change (sorted key_lt (valid_usage cat u)) with (ranking cat u).
  rewrite (filter_take_sorted (λ a b, key_lt a b = true)
             (λ kv : string * Z, 0 < usage_get u kv.1) _ _ (ranking_sorted cat u)).
  - rewrite length_fmap, length_take. f_equal.
    rewrite <- (length_fmap fst), <- (length_fmap code (filter _ cat)).
    apply Permutation_length. by apply used_codes_Permutation.
  - intros [k v] [k' v'] [_ ->]%ranking_elem [_ ->]%ranking_elem Hlt Hpos.
    apply key_lt_ranked in Hlt. simpl in *. destruct Hlt as [?|[? _]]; lia.
Qed.

Lemma favorites_are_used_codes_cut_to_five_witness :
  length (favorite_codes FALLBACK_KDL_DATA usage_C34_A01)
  = Nat.min 5 (length (filter (λ e, 0 < usage_get usage_C34_A01 (code e))
                         FALLBACK_KDL_DATA)).
Proof.
  apply favorites_are_used_codes_cut_to_five.
  apply (bool_decide_unpack _). vm_compute. exact I.
Defined.
